(** * Ecoverse crop-health engine: offline inference and record synchronisation

    A shallow embedding of [geminiService.ts] (feature extraction, profile
    matching, severity heuristic, cloud/local orchestration, offline-record
    sync), of [db.ts] (the record store), of [types.ts] and of the parts of
    the interface that decide on records (the analyzer's
    [handleStartAnalysis], [handleNewRecord] and [loadData] of the
    application, the insurance alert list and the distribution by crop
    type), followed by the properties of the specification that were
    checked against it and by further properties of the code.

    What lies outside the program is gathered in a record [World]: the
    connectivity signal, the credential, the remote service, [JSON.parse]
    and the decoding of images by the browser.  [localStorage] is taken to
    hold what was last written to it, its operations not to throw, and the
    progress callback to be a sink that neither throws nor touches the
    store.  A promise that never settles is modelled by [None].

    Numbers.  JavaScript numbers are IEEE doubles; here they are exact
    rationals ([Q]).  Counters that the source only ever increments by one are
    integers ([Z]).  [Math.round x] is [floor (x + 1/2)], [Math.min] is [Qmin],
    [Math.abs] is [Qabs].  Equalities between computed rationals are stated
    with [==] ([Qeq]).

    Exact rationals carry no rounding error.  Rounding to nearest is
    monotone and keeps signs, so what is said below of order, of sign and
    of ranges with bounds that doubles hold exactly is not affected.  The
    two arithmetics can part where a comparison or a [Math.round] falls
    within rounding error of its boundary; in this program: the test
    [lum < 70] on a colour whose luminance is exactly 70, [Math.round] of
    a product that is exactly a half, and the comparison of two profile
    scores (or of a score with 0.45) that are closer than rounding error.
    No statement below depends on which way such a case falls: the
    concrete inputs are evaluated far from these boundaries, and the
    general statements are on order and range. *)

From Stdlib Require Import ZArith QArith Qround Qminmax Qabs.
From Stdlib Require Import List String Ascii Strings.Byte Bool.
From Stdlib Require Import DecimalString.
From Stdlib Require Import Lia Lqa.
Import ListNotations.

Set Implicit Arguments.

(* ================================================================== *)
(** ** JavaScript arithmetic used by the program *)
(* ================================================================== *)

Module Js.

Open Scope Q_scope.

(** [x > y] and [x < y] on numbers. *)
Definition gt (x y : Q) : bool := negb (Qle_bool x y).
Definition lt (x y : Q) : bool := gt y x.

(** [Math.round]: nearest integer, halves go up.  On a product that
    is a half in exact arithmetic and just below it in doubles (73.5
    against 73.49999999999999) the source rounds down where this
    definition rounds up. *)
Definition Math_round (x : Q) : Z := Qfloor (x + (1 # 2)).
Definition Math_min (x y : Q) : Q := Qmin x y.
Definition Math_abs (x : Q) : Q := Qabs x.

(** A number read from a property that may be [undefined]: every
    comparison with [undefined] is false. *)
Definition gt_undef (x : option Q) (y : Q) : bool :=
  match x with Some q => gt q y | None => false end.

(** [x >= y] where [x] may be [undefined]. *)
Definition ge_undef (x : option Q) (y : Q) : bool :=
  match x with Some q => Qle_bool y q | None => false end.

(** Truthiness of an optional boolean property. *)
Definition truthy (b : option bool) : bool :=
  match b with Some true => true | _ => false end.

(** Truthiness of an optional string: [undefined] and the empty string
    are falsy. *)
Definition truthy_str (s : option string) : bool :=
  match s with
  | Some s => negb (String.eqb s EmptyString)
  | None => false
  end.

(** [`${n}`] for an integer-valued number. *)
Definition show (z : Z) : string := NilZero.string_of_int (Z.to_int z).

End Js.

Notation "x >? y" := (Js.gt x y) (at level 70, no associativity) : Q_scope.
Notation "x <? y" := (Js.lt x y) (at level 70, no associativity) : Q_scope.

(* ================================================================== *)
(** ** types.ts *)
(* ================================================================== *)

Inductive CropStatus := HEALTHY | STRESSED | DISEASED | CRITICAL.

Inductive StressSensitivity := Low | Standard | High | Aggressive.

Record UserSettings := {
  stressSensitivity : StressSensitivity;
  stressThreshold : Q;
  insuranceThreshold : Q;
  autoSync : bool
}.

Inductive RiskLevel := RiskLow | RiskMedium | RiskHigh.
Inductive Urgency := Immediate | Within48h | Monitoring.
Inductive Velocity := Static | Slow | Moderate | VAggressive.

(** An object typed [DetailedMetrics] / [YieldAnalysis].  The source obtains
    such objects either from [runLocalInference], which fills every field,
    or from [JSON.parse] of a remote reply, which is not checked against the
    declared type: at run time any property can be missing, and reads as
    [undefined] ([None]).  Properties that are present are taken to have
    their declared type. *)
Record DetailedMetrics := {
  leafCoverage : option Q;
  spreadVelocity : option Velocity;
  climateRiskFactor : option Q
}.

Record YieldAnalysis := {
  expectedLoss : option Q;
  confidenceScore : option Q;
  riskLevel : option RiskLevel;
  recommendations : option (list string);
  diseaseDetected : option string;
  diseaseDescription : option string;
  similarityScore : option Q;
  symptomlessStressDetected : option bool;
  stressProbability : option Q;
  treatmentUrgency : option Urgency;
  detailedMetrics : option DetailedMetrics
}.

Record CropRecord := {
  id : string;
  timestamp : Z;
  cropType : string;
  imageUrl : option string;
  status : CropStatus;
  analysis : YieldAnalysis;
  feedback : option string;
  isPendingSync : option bool;
  syncAttempts : option Z;
  lastSyncError : option string
}.

(** [averageYieldLoss] is [None] when the computation yields [NaN]. *)
Record DashboardStats := {
  totalAnalyzed : Z;
  healthyPercentage : Z;
  averageYieldLoss : option Z;
  activeAlerts : Z
}.

(** [Partial<CropRecord>]: the argument of [updateRecord]. *)
Record PartialCropRecord := {
  p_id : option string;
  p_timestamp : option Z;
  p_cropType : option string;
  p_imageUrl : option string;
  p_status : option CropStatus;
  p_analysis : option YieldAnalysis;
  p_feedback : option string;
  p_isPendingSync : option bool;
  p_syncAttempts : option Z;
  p_lastSyncError : option string
}.

(* ================================================================== *)
(** ** db.ts *)
(* ================================================================== *)

Module dbService.

(** The two [localStorage] entries, as the values they deserialise to;
    [None] is a key that was never written. *)
Record Storage := {
  agroguard_records : option (list CropRecord);
  agroguard_settings : option UserSettings
}.

Definition DEFAULT_SETTINGS : UserSettings :=
  {| stressSensitivity := Standard;
     stressThreshold := 20;
     insuranceThreshold := 25;
     autoSync := true |}.

Definition getRecords (ls : Storage) : list CropRecord :=
  match agroguard_records ls with Some data => data | None => [] end.

Definition getPendingRecords (ls : Storage) : list CropRecord :=
  filter (fun r => Js.truthy (isPendingSync r)) (getRecords ls).

Definition override {A} (new : option A) (old : A) : A :=
  match new with Some x => x | None => old end.

Definition override_opt {A} (new : option A) (old : option A) : option A :=
  match new with Some x => Some x | None => old end.

(** [{ ...r, ...updatedData }] *)
Definition spread (r : CropRecord) (u : PartialCropRecord) : CropRecord :=
  {| id := override (p_id u) (id r);
     timestamp := override (p_timestamp u) (timestamp r);
     cropType := override (p_cropType u) (cropType r);
     imageUrl := override_opt (p_imageUrl u) (imageUrl r);
     status := override (p_status u) (status r);
     analysis := override (p_analysis u) (analysis r);
     feedback := override_opt (p_feedback u) (feedback r);
     isPendingSync := override_opt (p_isPendingSync u) (isPendingSync r);
     syncAttempts := override_opt (p_syncAttempts u) (syncAttempts r);
     lastSyncError := override_opt (p_lastSyncError u) (lastSyncError r) |}.

Definition updateRecord (i : string) (updatedData : PartialCropRecord)
    (ls : Storage) : Storage :=
  {| agroguard_records :=
       Some (map (fun r => if String.eqb (id r) i then spread r updatedData else r)
                 (getRecords ls));
     agroguard_settings := agroguard_settings ls |}.

Definition getSettings (ls : Storage) : UserSettings :=
  match agroguard_settings ls with Some s => s | None => DEFAULT_SETTINGS end.

(** [records.unshift(record)] *)
Definition saveRecord (record : CropRecord) (ls : Storage) : Storage :=
  {| agroguard_records := Some (record :: getRecords ls);
     agroguard_settings := agroguard_settings ls |}.

Definition deleteRecord (i : string) (ls : Storage) : Storage :=
  {| agroguard_records :=
       Some (filter (fun r => negb (String.eqb (id r) i)) (getRecords ls));
     agroguard_settings := agroguard_settings ls |}.

(** [{ ...r, feedback }] *)
Definition with_feedback (r : CropRecord) (fb : string) : CropRecord :=
  {| id := id r; timestamp := timestamp r; cropType := cropType r;
     imageUrl := imageUrl r; status := status r; analysis := analysis r;
     feedback := Some fb; isPendingSync := isPendingSync r;
     syncAttempts := syncAttempts r; lastSyncError := lastSyncError r |}.

Definition updateFeedback (i : string) (fb : string) (ls : Storage) : Storage :=
  {| agroguard_records :=
       Some (map (fun r => if String.eqb (id r) i then with_feedback r fb else r)
                 (getRecords ls));
     agroguard_settings := agroguard_settings ls |}.


End dbService.

(* ================================================================== *)
(** ** geminiService.ts: the external collaborators *)
(* ================================================================== *)

(** What the browser does with [img.src = imageData]: the [onload] handler
    runs with a 2D context (and [getImageData(0, 0, 128, 128).data], a flat
    RGBA byte buffer), runs with no context, or never runs (the source
    installs no [onerror] handler, so the promise then never settles). *)
Inductive ImageLoad :=
| Loaded (pixels : list byte)
| NoContext
| NoLoadEvent.

(** A value produced by [JSON.parse].  The remote is asked for an object;
    [null] is kept because reading a property of it throws. *)
Inductive JsValue :=
| JsNull
| JsObject (a : YieldAnalysis).

Inductive ParseResult :=
| SyntaxError
| Parsed (v : JsValue).

(** The outcome of [await ai.models.generateContent(...)]: it throws, it
    resolves to a response whose [text] may be [undefined], or it never
    settles (the source sets no timeout). *)
Inductive Reply :=
| Rejects
| Responds (text : option string)
| Silent.

(** Everything outside the program.  [onLine] and [generateContent] are
    indexed by the number of orchestration decisions made so far, so that
    connectivity and the remote service may change during a sync pass. *)
Record World := {
  onLine : nat -> bool;
  API_KEY : option string;
  generateContent : nat -> option string -> string -> StressSensitivity -> Reply;
  JSON_parse : string -> ParseResult;
  loadImage : string -> ImageLoad
}.

(* ================================================================== *)
(** ** geminiService.ts: knowledge base *)
(* ================================================================== *)

Module geminiService.

Open Scope Q_scope.

Definition MAX_SYNC_ATTEMPTS : Z := 3.

(** The [required] lists of [ANALYSIS_SCHEMA].  The schema is only sent
    to the remote service as [responseSchema]; the source never checks a
    reply against it. *)
Definition ANALYSIS_SCHEMA (a : YieldAnalysis) : bool :=
  match expectedLoss a, confidenceScore a, riskLevel a, recommendations a,
        symptomlessStressDetected a, stressProbability a, treatmentUrgency a,
        diseaseDetected a, diseaseDescription a with
  | Some _, Some _, Some _, Some _, Some _, Some _, Some _, Some _, Some _ =>
      match detailedMetrics a with
      | None => true
      | Some m =>
          match leafCoverage m, spreadVelocity m, climateRiskFactor m with
          | Some _, Some _, Some _ => true
          | _, _, _ => false
          end
      end
  | _, _, _, _, _, _, _, _, _ => false
  end.

Record LocalVisualFeatures := {
  greenness : Q;
  variance : Q;
  necroticDensity : Q;
  redness : Q;
  edgeDensity : Q;
  zonalIntegrity : Q
}.

(** [keyof LocalVisualFeatures] and [visual[key]]. *)
Inductive FeatureKey :=
| k_greenness | k_variance | k_necroticDensity
| k_redness | k_edgeDensity | k_zonalIntegrity.

Definition feature (visual : LocalVisualFeatures) (key : FeatureKey) : Q :=
  match key with
  | k_greenness => greenness visual
  | k_variance => variance visual
  | k_necroticDensity => necroticDensity visual
  | k_redness => redness visual
  | k_edgeDensity => edgeDensity visual
  | k_zonalIntegrity => zonalIntegrity visual
  end.

(** [weights] is an object literal; [Object.entries] lists it in the
    order written. *)
Record DiseaseProfile := {
  name : string;
  weights : list (FeatureKey * Q);
  description : string;
  profile_recommendations : list string;
  baseLossModifier : Q
}.

Definition LeafRust : DiseaseProfile :=
  {| name := "Leaf Rust (Puccinia spp.)";
     weights := [(k_redness, 0.8); (k_edgeDensity, 0.6); (k_variance, 0.4)];
     description := "Detected characteristic reddish-orange fungal pustules causing high localized spectral variance.";
     profile_recommendations :=
       ["Apply triazole fungicide"; "Reduce overhead irrigation"; "Monitor spread to adjacent rows"]%string;
     baseLossModifier := 1.2 |}.

Definition LateBlight : DiseaseProfile :=
  {| name := "Late Blight (Phytophthora infestans)";
     weights := [(k_necroticDensity, 0.9); (k_greenness, -0.8); (k_variance, 0.7)];
     description := "Widespread necrotic lesions with high variance. Typical of aggressive oomycete infection.";
     profile_recommendations :=
       ["Immediate copper-based spray"; "Remove heavily infected plant matter"; "Check for stem cankers"]%string;
     baseLossModifier := 2.0 |}.

Definition PowderyMildew : DiseaseProfile :=
  {| name := "Powdery Mildew";
     weights := [(k_variance, 0.8); (k_edgeDensity, 0.5); (k_greenness, -0.2)];
     description := "Surface-level white mycelial growth creating high textural complexity and edge counts.";
     profile_recommendations :=
       ["Increase airflow in canopy"; "Apply sulfur-based powders"; "Check relative humidity levels"]%string;
     baseLossModifier := 0.8 |}.

Definition Chlorosis : DiseaseProfile :=
  {| name := "Nitrogen/Iron Chlorosis";
     weights := [(k_greenness, -0.9); (k_zonalIntegrity, -0.7); (k_necroticDensity, -0.5)];
     description := "Broad-spectrum chlorophyll loss starting from leaf margins. Pattern suggests physiological deficiency.";
     profile_recommendations :=
       ["Check soil pH (likely >7.0)"; "Apply chelated iron/nitrogen"; "Review drainage efficiency"]%string;
     baseLossModifier := 0.6 |}.

Definition BacterialLeafSpot : DiseaseProfile :=
  {| name := "Bacterial Leaf Spot";
     weights := [(k_edgeDensity, 0.9); (k_necroticDensity, 0.5); (k_variance, 0.5)];
     description := "Small, angular necrotic spots with sharp boundaries (high edge density).";
     profile_recommendations :=
       ["Avoid handling wet foliage"; "Apply fixed copper bactericide"; "Sanitize equipment between sectors"]%string;
     baseLossModifier := 1.1 |}.

Definition DISEASE_PROFILES : list DiseaseProfile :=
  [LeafRust; LateBlight; PowderyMildew; Chlorosis; BacterialLeafSpot].

(* ---------------------------------------------------------------- *)
(** *** extractVisualFeatures *)

Definition size : Z := 128.
Definition pixelCount : Z := size * size.
Definition centerLimit : Q := inject_Z size * 0.25.
Definition centerMax : Q := inject_Z size * 0.75.

Definition channel (b : byte) : Q := inject_Z (Z.of_N (Byte.to_N b)).

(** The accumulators of the per-pixel loop. *)
Record Counters := {
  green : Z; dark : Z; red : Z; totalVar : Q;
  centerGreen : Z; edgeGreen : Z
}.

Definition zero : Counters :=
  {| green := 0; dark := 0; red := 0; totalVar := 0;
     centerGreen := 0; edgeGreen := 0 |}.

(** One iteration of [for (let i = 0; i < pixels.length; i += 4)],
    with [pixelIdx = i / 4].  [lum] is the exact weighted sum: on the
    few colours where it is exactly 70, such as (10, 106, 42), the
    source's sum in doubles is 69.99999999999999 and counts the pixel as
    dark, which this definition does not. *)
Definition pixel_body (pr pg pb : byte) (pixelIdx : Z) (c : Counters) : Counters :=
  let r := channel pr in
  let g := channel pg in
  let b := channel pb in
  let x := inject_Z (pixelIdx mod size) in
  let y := inject_Z (pixelIdx / size) in
  let isCenter :=
    (x >? centerLimit) && (x <? centerMax) && (y >? centerLimit) && (y <? centerMax) in
  let isGreen := (g >? r * 1.1) && (g >? b * 1.1) in
  let isRed := (r >? g * 1.3) && (r >? b * 1.2) in
  let lum := 0.299 * r + 0.587 * g + 0.114 * b in
  {| green := if isGreen then green c + 1 else green c;
     centerGreen := if isGreen && isCenter then centerGreen c + 1 else centerGreen c;
     edgeGreen := if isGreen && negb isCenter then edgeGreen c + 1 else edgeGreen c;
     red := if isRed then red c + 1 else red c;
     dark := if lum <? 70 then dark c + 1 else dark c;
     totalVar := totalVar c + (Js.Math_abs (r - g) + Js.Math_abs (g - b)) |}.

(** The per-pixel loop over the RGBA buffer, four bytes at a time (the
    buffer of [getImageData] holds whole pixels). *)
Fixpoint pixel_loop (pixels : list byte) (pixelIdx : Z) (c : Counters) : Counters :=
  match pixels with
  | pr :: pg :: pb :: _ :: rest =>
      pixel_loop rest (pixelIdx + 1)%Z (pixel_body pr pg pb pixelIdx c)
  | _ => c
  end.

(** [for (let i = 0; i < pixels.length - 8; i += 8)]: the red channels
    of pixel [i/4] and of the next one are compared; the iteration at
    [i] runs only when something follows the eight bytes read. *)
Fixpoint edge_loop (pixels : list byte) (edges : Z) : Z :=
  match pixels with
  | p0 :: _ :: _ :: _ :: p4 :: _ :: _ :: _ :: rest =>
      match rest with
      | [] => edges
      | _ :: _ =>
          edge_loop rest
            (if Js.Math_abs (channel p0 - channel p4) >? 40
             then (edges + 1)%Z else edges)
      end
  | _ => edges
  end.

(** The body of [img.onload] once the context exists. *)
Definition onload (pixels : list byte) : LocalVisualFeatures :=
  let c := pixel_loop pixels 0%Z zero in
  let edges := edge_loop pixels 0%Z in
  let n := inject_Z pixelCount in
  {| greenness := inject_Z (green c) / n;
     variance := Js.Math_min 1 (totalVar c / (n * 200));
     necroticDensity := inject_Z (dark c) / n;
     redness := inject_Z (red c) / n;
     edgeDensity := Js.Math_min 1 (inject_Z edges / (n * 0.4));
     zonalIntegrity :=
       if (edgeGreen c >? 0)%Z
       then inject_Z (centerGreen c) / inject_Z (edgeGreen c)
       else 1 |}.

Definition no_context_features : LocalVisualFeatures :=
  {| greenness := 0.5; variance := 0.1; necroticDensity := 0;
     redness := 0.1; edgeDensity := 0.1; zonalIntegrity := 0.8 |}.

(** [None]: the promise never settles. *)
Definition extractVisualFeatures (w : World) (imageData : string)
    : option LocalVisualFeatures :=
  match loadImage w imageData with
  | Loaded pixels => Some (onload pixels)
  | NoContext => Some no_context_features
  | NoLoadEvent => None
  end.

(* ---------------------------------------------------------------- *)
(** *** runLocalInference *)

Definition default_features : LocalVisualFeatures :=
  {| greenness := 0.8; variance := 0.1; necroticDensity := 0.05;
     redness := 0.02; edgeDensity := 0.1; zonalIntegrity := 0.9 |}.

Definition sMod (sensitivity : StressSensitivity) : Q :=
  match sensitivity with
  | Aggressive => 1.4
  | High => 1.2
  | _ => 1.0
  end.

(** The inner loop over [Object.entries(profile.weights)], then
    [score / weightCount].  The quotient is exact: 1.86 / 2.4 is 0.775
    here and 0.7749999999999999 in the source, so two profiles whose
    scores are closer than that can compare differently. *)
Definition entry_step (visual : LocalVisualFeatures) (acc : Q * Q)
    (entry : FeatureKey * Q) : Q * Q :=
  let '(score, weightCount) := acc in
  let '(key, weight) := entry in
  let featVal := feature visual key in
  (score + (if weight >? 0 then featVal * weight
            else (1 - featVal) * Js.Math_abs weight),
   weightCount + Js.Math_abs weight).

Definition finalScore (visual : LocalVisualFeatures) (profile : DiseaseProfile) : Q :=
  let '(score, weightCount) := fold_left (entry_step visual) (weights profile) (0, 0) in
  score / weightCount.

(** The outer loop: [(bestProfile, maxScore)], replaced only by a
    strictly larger score. *)
Definition profile_step (visual : LocalVisualFeatures)
    (acc : option DiseaseProfile * Q) (profile : DiseaseProfile)
    : option DiseaseProfile * Q :=
  let '(bestProfile, maxScore) := acc in
  let s := finalScore visual profile in
  if s >? maxScore then (Some profile, s) else (bestProfile, maxScore).

Definition bestMatch (visual : LocalVisualFeatures) : option DiseaseProfile * Q :=
  fold_left (profile_step visual) DISEASE_PROFILES (None, - (1)).

Definition stressHeuristic (visual : LocalVisualFeatures)
    (sensitivity : StressSensitivity) : Q :=
  ((1 - greenness visual) * 0.4 + necroticDensity visual * 0.4
   + (1 - zonalIntegrity visual) * 0.2) * sMod sensitivity.

Definition isSymptomless (visual : LocalVisualFeatures)
    (sensitivity : StressSensitivity) : bool :=
  (stressHeuristic visual sensitivity >? 0.25)
  && (necroticDensity visual <? 0.1) && (edgeDensity visual <? 0.2).

(** [maxScore > 0.45 && bestProfile ? bestProfile : null] *)
Definition matchedDisease (visual : LocalVisualFeatures) : option DiseaseProfile :=
  let '(bestProfile, maxScore) := bestMatch visual in
  if maxScore >? 0.45 then bestProfile else None.

(** The object returned by [runLocalInference], given [visual]. *)
Definition localAnalysis (visual : LocalVisualFeatures)
    (sensitivity : StressSensitivity) : YieldAnalysis :=
  let '(bestProfile, maxScore) := bestMatch visual in
  let stress := stressHeuristic visual sensitivity in
  let symptomless := isSymptomless visual sensitivity in
  let confidence := Js.Math_min 0.92 (0.5 + maxScore * 0.4) in
  let matched := matchedDisease visual in
  {| expectedLoss :=
       Some (inject_Z (Js.Math_round
         (stress * 35 * match matched with
                        | Some p => baseLossModifier p
                        | None => 1
                        end)));
     confidenceScore := Some confidence;
     riskLevel :=
       Some (if stress >? 0.5 then RiskHigh
             else if stress >? 0.2 then RiskMedium else RiskLow);
     recommendations :=
       Some (match matched with
             | Some p => profile_recommendations p
             | None =>
                 if symptomless
                 then ["Apply micronutrient foliar spray"; "Verify soil moisture"; "Conduct sap test"]%string
                 else ["Isolate sector"; "Apply organic fungicide"; "Monitor spread"]%string
             end);
     diseaseDetected :=
       Some (match matched with
             | Some p => name p
             | None => if symptomless then "Physiological Stress"%string
                       else "Unknown Pathogen"%string
             end);
     diseaseDescription :=
       Some (match matched with
             | Some _ =>
                 ("Local Diagnostic Engine Match: "
                  ++ match bestProfile with
                     | Some p => description p
                     | None => "undefined"
                     end
                  ++ " (Match Confidence: "
                  ++ Js.show (Js.Math_round (maxScore * 100)) ++ "%)")%string
             | None =>
                 ("Heuristic Analysis: Zonal integrity at "
                  ++ Js.show (Js.Math_round (zonalIntegrity visual * 100)) ++ "%. "
                  ++ (if symptomless
                      then "Detected spectral shifts indicating latent stress."
                      else "Detected atypical morphological lesions."))%string
             end);
     similarityScore := Some maxScore;
     symptomlessStressDetected := Some symptomless;
     stressProbability := Some (inject_Z (Js.Math_round (stress * 100)));
     treatmentUrgency :=
       Some (if stress >? 0.4 then Immediate
             else if stress >? 0.15 then Within48h else Monitoring);
     detailedMetrics :=
       Some {| leafCoverage :=
                 Some (inject_Z (Js.Math_round (necroticDensity visual * 160)));
               spreadVelocity :=
                 Some (if edgeDensity visual >? 0.35 then VAggressive
                       else if edgeDensity visual >? 0.15 then Moderate else Slow);
               climateRiskFactor := Some 0.5 |} |}.

(** [imageData] is [string | null]; the empty string is falsy too.
    [None]: the promise never settles. *)
Definition runLocalInference (w : World) (imageData : option string)
    (cropType : string) (sensitivity : StressSensitivity) : option YieldAnalysis :=
  let visual :=
    match imageData with
    | Some data =>
        if Js.truthy_str imageData then extractVisualFeatures w data
        else Some default_features
    | None => Some default_features
    end in
  option_map (fun v => localAnalysis v sensitivity) visual.

(* ---------------------------------------------------------------- *)
(** *** analyzeCropHealth *)

(** [response.text || "{}"] *)
Definition text_or_empty_object (text : option string) : string :=
  match text with
  | Some s => if Js.truthy_str text then s else "{}"%string
  | None => "{}"%string
  end.

(** The orchestration decision made at time [t].  [None]: the returned
    promise never settles.  The promise is never rejected: every
    exception of the remote path is caught. *)
Definition analyzeCropHealth (w : World) (t : nat) (imageData : option string)
    (cropType : string) (sensitivity : StressSensitivity) : option JsValue :=
  let local :=
    option_map JsObject (runLocalInference w imageData cropType sensitivity) in
  if negb (onLine w t) || negb (Js.truthy_str (API_KEY w)) then local
  else
    match generateContent w t imageData cropType sensitivity with
    | Rejects => local
    | Silent => None
    | Responds text =>
        match JSON_parse w (text_or_empty_object text) with
        | SyntaxError => local
        | Parsed v => Some v
        end
    end.

(* ---------------------------------------------------------------- *)
(** *** syncOfflineRecords *)

Inductive ProgressStatus := idle | syncing | completed | failed.

Record SyncProgress := {
  current : Z;
  total : Z;
  progress_status : ProgressStatus;
  currentCrop : option string
}.

(** The mutable state the function works on: the store and the
    module-level flag [isSyncActive]. *)
Record Machine := {
  localStorage : dbService.Storage;
  isSyncActive : bool
}.

(** The state threaded through the loop: the time of the next
    orchestration decision, the store, and two logs, the records handed
    to [analyzeCropHealth] and the progress reports made (oldest first). *)
Record Loop := {
  now : nat;
  store : dbService.Storage;
  handed : list CropRecord;
  reported : list SyncProgress
}.

(** [record.syncAttempts || 0] *)
Definition attempts (record : CropRecord) : Z :=
  match syncAttempts record with Some n => n | None => 0%Z end.

(** [record.imageUrl || null] *)
Definition imageUrl_or_null (record : CropRecord) : option string :=
  if Js.truthy_str (imageUrl record) then imageUrl record else None.

(** Lines 283-287: the status recomputed from the new analysis. *)
Definition recomputed_status (cloudResult : YieldAnalysis) (settings : UserSettings)
    : CropStatus :=
  if Js.gt_undef (expectedLoss cloudResult) (insuranceThreshold settings) then CRITICAL
  else if Js.gt_undef (expectedLoss cloudResult) 5
          || Js.truthy (symptomlessStressDetected cloudResult)
       then (if Js.gt_undef (expectedLoss cloudResult) 15 then DISEASED else STRESSED)
       else HEALTHY.

(** The argument of [updateRecord] in the [try] branch. *)
Definition success_update (record : CropRecord) (cloudResult : YieldAnalysis)
    (settings : UserSettings) : PartialCropRecord :=
  {| p_id := None; p_timestamp := None; p_cropType := None; p_imageUrl := None;
     p_status := Some (recomputed_status cloudResult settings);
     p_analysis := Some cloudResult;
     p_feedback := None;
     p_isPendingSync := Some false;
     p_syncAttempts := Some (attempts record + 1)%Z;
     p_lastSyncError := None |}.

(** The argument of [updateRecord] in the [catch] branch. *)
Definition failure_update (record : CropRecord) : PartialCropRecord :=
  {| p_id := None; p_timestamp := None; p_cropType := None; p_imageUrl := None;
     p_status := None; p_analysis := None; p_feedback := None;
     p_isPendingSync := None;
     p_syncAttempts := Some (attempts record + 1)%Z;
     p_lastSyncError := None |}.

Definition report (onProgress : bool) (p : SyncProgress) (l : Loop) : Loop :=
  if onProgress
  then {| now := now l; store := store l; handed := handed l;
          reported := reported l ++ [p] |}
  else l.

(** The [for] loop from index [i] on, [pending] being the records not
    yet visited ([pending[i]], [pending[i+1]], ...).  The boolean is
    false when an awaited call never settles: the pass then stops where
    it is. *)
Fixpoint sync_loop (w : World) (settings : UserSettings) (onProgress : bool)
    (length : Z) (i : Z) (pending : list CropRecord) (l : Loop) : Loop * bool :=
  match pending with
  | [] => (l, true)
  | record :: rest =>
      if (attempts record >=? MAX_SYNC_ATTEMPTS)%Z
      then sync_loop w settings onProgress length (i + 1)%Z rest l
      else
        let l1 := report onProgress
                    {| current := (i + 1)%Z; total := length;
                       progress_status := syncing;
                       currentCrop := Some (cropType record) |} l in
        let awaited :=
          analyzeCropHealth w (now l1) (imageUrl_or_null record)
            (cropType record) (stressSensitivity settings) in
        let l2 := {| now := S (now l1); store := store l1;
                     handed := handed l1 ++ [record];
                     reported := reported l1 |} in
        match awaited with
        | None => (l2, false)
        | Some (JsObject cloudResult) =>
            sync_loop w settings onProgress length (i + 1)%Z rest
              {| now := now l2;
                 store := dbService.updateRecord (id record)
                            (success_update record cloudResult settings) (store l2);
                 handed := handed l2; reported := reported l2 |}
        | Some JsNull =>
            (* [cloudResult.expectedLoss] throws; the [catch] branch runs *)
            sync_loop w settings onProgress length (i + 1)%Z rest
              {| now := now l2;
                 store := dbService.updateRecord (id record)
                            (failure_update record) (store l2);
                 handed := handed l2; reported := reported l2 |}
        end
  end.

(** The result of one invocation: the state it leaves, its two logs,
    and whether the returned promise settles. *)
Record Pass := {
  final : Machine;
  calls : list CropRecord;
  progress : list SyncProgress;
  returned : bool
}.

(** [syncOfflineRecords(onProgress)] invoked at time [t] on machine [m];
    [onProgress] tells whether a callback was passed. *)
Definition syncOfflineRecords (w : World) (onProgress : bool) (t : nat)
    (m : Machine) : Pass :=
  if isSyncActive m || negb (onLine w t) || negb (Js.truthy_str (API_KEY w))
  then {| final := m; calls := []; progress := []; returned := true |}
  else
    let pending := dbService.getPendingRecords (localStorage m) in
    match pending with
    | [] => {| final := {| localStorage := localStorage m; isSyncActive := false |};
               calls := []; progress := []; returned := true |}
    | _ :: _ =>
        let settings := dbService.getSettings (localStorage m) in
        let length := Z.of_nat (List.length pending) in
        let '(l, finished) :=
          sync_loop w settings onProgress length 0%Z pending
            {| now := S t; store := localStorage m; handed := []; reported := [] |} in
        if finished
        then
          let l' := report onProgress
                      {| current := length; total := length;
                         progress_status := completed; currentCrop := None |} l in
          {| final := {| localStorage := store l'; isSyncActive := false |};
             calls := handed l'; progress := reported l'; returned := true |}
        else
          {| final := {| localStorage := store l; isSyncActive := true |};
             calls := handed l; progress := reported l; returned := false |}
    end.

End geminiService.

(* ================================================================== *)
(** ** components/Analyzer.tsx *)
(* ================================================================== *)

Module Analyzer.

Import geminiService.
Open Scope Q_scope.

(** The status computed in [handleStartAnalysis]. *)
Definition status_of (result : YieldAnalysis) (stressThreshold : Q) : CropStatus :=
  if Js.gt_undef (expectedLoss result) 30 then CRITICAL
  else if Js.gt_undef (expectedLoss result) 5
          || Js.truthy (symptomlessStressDetected result)
          || Js.ge_undef (stressProbability result) stressThreshold
       then (if Js.gt_undef (expectedLoss result) 15 then DISEASED else STRESSED)
       else HEALTHY.

(** What a click on the analysis button leads to: nothing (no image), the
    result card of a new record, the failure alert, or an analysis that
    never returns. *)
Inductive Outcome :=
| Ignored
| ShowResult (record : CropRecord)
| Alert
| Analyzing.

(** [handleStartAnalysis], [randomId] being the value of
    [Math.random().toString(36).substr(2, 9)] and [now] that of
    [Date.now()]. *)
Definition handleStartAnalysis (w : World) (t : nat) (image : option string)
    (crop : string) (sensitivity : StressSensitivity) (stressThreshold : Q)
    (randomId : string) (now : Z) : Outcome :=
  if negb (Js.truthy_str image) then Ignored
  else
    match analyzeCropHealth w t image crop sensitivity with
    | None => Analyzing
    | Some JsNull => Alert
    | Some (JsObject result) =>
        ShowResult
          {| id := randomId; timestamp := now; cropType := crop;
             imageUrl := image; status := status_of result stressThreshold;
             analysis := result; feedback := None; isPendingSync := None;
             syncAttempts := None; lastSyncError := None |}
    end.

End Analyzer.

(* ================================================================== *)
(** ** components/Insurance.tsx *)
(* ================================================================== *)

Module Insurance.

(** [records.filter(r => r.analysis.expectedLoss >= threshold)] *)
Definition insuranceAlerts (records : list CropRecord) (threshold : Q) : list CropRecord :=
  filter (fun r => Js.ge_undef (expectedLoss (analysis r)) threshold) records.

End Insurance.

(* ================================================================== *)
(** ** App.tsx *)
(* ================================================================== *)

Module App.

Open Scope Q_scope.

(** [{ ...record, isPendingSync: !isOnline, syncAttempts: 0 }] saved at
    the head of the store. *)
Definition handleNewRecord (record : CropRecord) (isOnline : bool)
    (ls : dbService.Storage) : dbService.Storage :=
  dbService.saveRecord
    {| id := id record; timestamp := timestamp record; cropType := cropType record;
       imageUrl := imageUrl record; status := status record;
       analysis := analysis record; feedback := feedback record;
       isPendingSync := Some (negb isOnline); syncAttempts := Some 0%Z;
       lastSyncError := lastSyncError record |}
    ls.

(** [allRecords.reduce((acc, r) => acc + r.analysis.expectedLoss, 0)];
    a missing [expectedLoss] makes the sum [NaN]. *)
Definition sum_losses (allRecords : list CropRecord) : option Q :=
  fold_left
    (fun acc r =>
       match acc, expectedLoss (analysis r) with
       | Some a, Some l => Some (a + l)
       | _, _ => None
       end)
    allRecords (Some 0).

Definition is_healthy (r : CropRecord) : bool :=
  match status r with HEALTHY => true | _ => false end.

(** The statistics set by [loadData]; with an empty store [setStats] is
    not called and the previous statistics stay. *)
Definition loadData (settings : UserSettings) (ls : dbService.Storage)
    (stats : DashboardStats) : DashboardStats :=
  let allRecords := dbService.getRecords ls in
  match allRecords with
  | [] => stats
  | _ :: _ =>
      let n := inject_Z (Z.of_nat (List.length allRecords)) in
      let healthy := inject_Z (Z.of_nat (List.length (filter is_healthy allRecords))) in
      let avgLoss := option_map (fun total => total / n) (sum_losses allRecords) in
      let alerts :=
        List.length
          (filter (fun r => Js.ge_undef (expectedLoss (analysis r))
                              (insuranceThreshold settings)) allRecords) in
      {| totalAnalyzed := Z.of_nat (List.length allRecords);
         healthyPercentage := Js.Math_round (healthy / n * 100);
         averageYieldLoss := option_map Js.Math_round avgLoss;
         activeAlerts := Z.of_nat alerts |}
  end.

End App.

(* ================================================================== *)
(** ** components/Analytics.tsx *)
(* ================================================================== *)

Module Analytics.

(** [existing.value += 1] on the first entry found with that name. *)
Fixpoint increment (name : string) (acc : list (string * Z)) : list (string * Z) :=
  match acc with
  | [] => []
  | (n, v) :: rest =>
      if String.eqb n name then (n, (v + 1)%Z) :: rest
      else (n, v) :: increment name rest
  end.

(** One step of the [reduce]: [acc.find(item => item.name === r.cropType)],
    then the increment or the [push]. *)
Definition typeData_step (acc : list (string * Z)) (r : CropRecord) : list (string * Z) :=
  if existsb (fun item => String.eqb (fst item) (cropType r)) acc
  then increment (cropType r) acc
  else acc ++ [(cropType r, 1%Z)].

(** The distribution by crop type: entries [{ name, value }]. *)
Definition typeData (records : list CropRecord) : list (string * Z) :=
  fold_left typeData_step records [].

End Analytics.

Import geminiService.
Open Scope Q_scope.

(* ================================================================== *)
(** ** Inputs of the scenarios and readings of the specification *)
(* ================================================================== *)

(** The feature vector of the Late Blight scenario. *)
Definition blight_features : LocalVisualFeatures :=
  {| greenness := 0.1; necroticDensity := 0.7; variance := 0.6;
     redness := 0.05; edgeDensity := 0.1; zonalIntegrity := 0.3 |}.

(** A stored analysis: the one the local engine gives for the blight vector. *)
Definition stored_analysis : YieldAnalysis := localAnalysis blight_features Standard.

Definition pending_record (i : string) (n : Z) : CropRecord :=
  {| id := i; timestamp := 1700000000000; cropType := "Potato";
     imageUrl := None; status := CRITICAL; analysis := stored_analysis;
     feedback := None; isPendingSync := Some true; syncAttempts := Some n;
     lastSyncError := None |}.

(** Two pending records: one at the retry cap, one never tried. *)
Definition capped_record : CropRecord := pending_record "k3x9q0a1b" 3.
Definition fresh_record : CropRecord := pending_record "z7m2p4c8d" 0.

Definition two_pending : Machine :=
  {| localStorage :=
       {| dbService.agroguard_records := Some [capped_record; fresh_record];
          dbService.agroguard_settings := None |};
     isSyncActive := false |}.

Definition one_pending : Machine :=
  {| localStorage :=
       {| dbService.agroguard_records := Some [fresh_record];
          dbService.agroguard_settings := None |};
     isSyncActive := false |}.

(** The same store while a pass is already running. *)
Definition busy_machine : Machine :=
  {| localStorage := localStorage two_pending; isSyncActive := true |}.

(** The empty object, what ["{}"] parses to. *)
Definition empty_object : YieldAnalysis :=
  {| expectedLoss := None; confidenceScore := None; riskLevel := None;
     recommendations := None; diseaseDetected := None; diseaseDescription := None;
     similarityScore := None; symptomlessStressDetected := None;
     stressProbability := None; treatmentUrgency := None; detailedMetrics := None |}.

(** A complete remote analysis with a loss of 10 percent and no
    symptomless stress. *)
Definition mild_analysis : YieldAnalysis :=
  {| expectedLoss := Some 10; confidenceScore := Some 0.9; riskLevel := Some RiskLow;
     recommendations := Some ["Monitor spread"%string];
     diseaseDetected := Some "Early Blight"%string;
     diseaseDescription := Some "Scattered concentric lesions."%string;
     similarityScore := Some 0.6; symptomlessStressDetected := Some false;
     stressProbability := Some 12; treatmentUrgency := Some Monitoring;
     detailedMetrics :=
       Some {| leafCoverage := Some 8; spreadVelocity := Some Slow;
               climateRiskFactor := Some 0.3 |} |}.

(** Online, with a credential; every remote call throws. *)
Definition failing_world : World :=
  {| onLine := fun _ => true;
     API_KEY := Some "key"%string;
     generateContent := fun _ _ _ _ => Rejects;
     JSON_parse := fun _ => SyntaxError;
     loadImage := fun _ => NoLoadEvent |}.

(** The JSON text of [mild_analysis]. *)
Definition mild_json : string :=
  let q := String (ascii_of_nat 34) EmptyString in
  let key k := (q ++ k ++ q ++ ":")%string in
  let str v := (q ++ v ++ q)%string in
  ("{" ++ key "expectedLoss" ++ "10,"
       ++ key "confidenceScore" ++ "0.9,"
       ++ key "riskLevel" ++ str "Low" ++ ","
       ++ key "recommendations" ++ "[" ++ str "Monitor spread" ++ "],"
       ++ key "diseaseDetected" ++ str "Early Blight" ++ ","
       ++ key "diseaseDescription" ++ str "Scattered concentric lesions." ++ ","
       ++ key "similarityScore" ++ "0.6,"
       ++ key "symptomlessStressDetected" ++ "false,"
       ++ key "stressProbability" ++ "12,"
       ++ key "treatmentUrgency" ++ str "Monitoring" ++ ","
       ++ key "detailedMetrics" ++ "{"
       ++ key "leafCoverage" ++ "8,"
       ++ key "spreadVelocity" ++ str "Slow" ++ ","
       ++ key "climateRiskFactor" ++ "0.3}}")%string.

(** Online, with a credential; every remote call answers [text].
    [JSON.parse] is given on the two texts used, the empty object and
    [mild_json]. *)
Definition answering_world (text : option string) : World :=
  {| onLine := fun _ => true;
     API_KEY := Some "key"%string;
     generateContent := fun _ _ _ _ => Responds text;
     JSON_parse := fun s =>
       if String.eqb s "{}" then Parsed (JsObject empty_object)
       else if String.eqb s mild_json then Parsed (JsObject mild_analysis)
       else SyntaxError;
     loadImage := fun _ => NoLoadEvent |}.

(** The three-tier rule in the words of the specification: Critical above
    the insurance threshold; otherwise, when the loss exceeds 15 or
    symptomless stress was detected, Diseased above 15 and Stressed below;
    otherwise Healthy. *)
Definition spec_status (a : YieldAnalysis) (settings : UserSettings) : CropStatus :=
  if Js.gt_undef (expectedLoss a) (insuranceThreshold settings) then CRITICAL
  else if Js.gt_undef (expectedLoss a) 15 || Js.truthy (symptomlessStressDetected a)
       then (if Js.gt_undef (expectedLoss a) 15 then DISEASED else STRESSED)
       else HEALTHY.

(** [a.expectedLoss > q], as a proposition. *)
Definition loss_exceeds (a : YieldAnalysis) (q : Q) : Prop :=
  exists l, expectedLoss a = Some l /\ q < l.

(** The records of a machine's store. *)
Definition records_of (m : Machine) : list CropRecord :=
  dbService.getRecords (localStorage m).

(** How a stored record [x'] relates to what it was ([x]) earlier in a
    pass: either its status, analysis and pending flag are those of [x],
    or the flag is cleared and the status is the one recomputed from the
    analysis it now holds. *)
Definition reconciled (settings : UserSettings) (x x' : CropRecord) : Prop :=
  (status x' = status x /\ analysis x' = analysis x
   /\ isPendingSync x' = isPendingSync x)
  \/ (isPendingSync x' = Some false
      /\ status x' = recomputed_status (analysis x') settings).

(** A store with one record that is not pending and one that is. *)
Definition synced_record : CropRecord :=
  {| id := "q1w2e3r4t"; timestamp := 1690000000000; cropType := "Maize";
     imageUrl := None; status := HEALTHY; analysis := mild_analysis;
     feedback := Some "looks fine"%string; isPendingSync := Some false;
     syncAttempts := Some 1%Z; lastSyncError := None |}.

Definition mixed_store : Machine :=
  {| localStorage :=
       {| dbService.agroguard_records := Some [synced_record; fresh_record];
          dbService.agroguard_settings := None |};
     isSyncActive := false |}.

(** The green test and the central square of the per-pixel loop, and the
    two counts the specification names: green pixels inside the central
    square (both coordinates strictly between 32 and 96) and green pixels
    outside it. *)
Definition green_pixel (pr pg pb : byte) : bool :=
  (channel pg >? channel pr * 1.1) && (channel pg >? channel pb * 1.1).

Definition central (pixelIdx : Z) : bool :=
  ((32 <? pixelIdx mod 128) && (pixelIdx mod 128 <? 96)
   && (32 <? pixelIdx / 128) && (pixelIdx / 128 <? 96))%Z.

Fixpoint count_green (zone : Z -> bool) (pixels : list byte) (pixelIdx : Z) : Z :=
  match pixels with
  | pr :: pg :: pb :: _ :: rest =>
      ((if green_pixel pr pg pb && zone pixelIdx then 1 else 0)
       + count_green zone rest (pixelIdx + 1))%Z
  | _ => 0%Z
  end.

Definition centerGreenCount (pixels : list byte) : Z :=
  count_green central pixels 0.

Definition peripheryGreenCount (pixels : list byte) : Z :=
  count_green (fun i => negb (central i)) pixels 0.

(** The buffer of [getImageData(0, 0, 128, 128)]: four bytes per pixel. *)
Definition canvas_buffer (pixels : list byte) : Prop :=
  Z.of_nat (List.length pixels) = (4 * pixelCount)%Z.

Definition unit_interval (q : Q) : Prop := 0 <= q /\ q <= 1.

(** A green leaf filling columns 32..96 of rows 32..96 of the canvas, on a
    black background. *)
Definition black_px : list byte := [x00; x00; x00; xff].
Definition green_px : list byte := [x00; xff; x00; xff].

Definition dark_row : list byte := List.concat (repeat black_px 128).

Definition leaf_row : list byte :=
  List.concat (repeat black_px 32 ++ repeat green_px 65 ++ repeat black_px 31)%list.

Definition centred_leaf : list byte :=
  List.concat (repeat dark_row 32 ++ repeat leaf_row 65 ++ repeat dark_row 31)%list.

Definition leaf_world : World :=
  {| onLine := fun _ => false;
     API_KEY := None;
     generateContent := fun _ _ _ _ => Rejects;
     JSON_parse := fun _ => SyntaxError;
     loadImage := fun _ => Loaded centred_leaf |}.

(** A feature vector as the data model describes it: every component in
    [0,1]. *)
Definition unit_features (v : LocalVisualFeatures) : Prop :=
  unit_interval (greenness v) /\ unit_interval (variance v)
  /\ unit_interval (necroticDensity v) /\ unit_interval (redness v)
  /\ unit_interval (edgeDensity v) /\ unit_interval (zonalIntegrity v).

(** The factor applied to the loss: the confirmed profile's
    [baseLossModifier], or 1. *)
Definition lossModifier (v : LocalVisualFeatures) : Q :=
  match matchedDisease v with
  | Some p => baseLossModifier p
  | None => 1
  end.

(** [matchedDisease ? matchedDisease.baseLossModifier : 1], as a function
    of what line 202 has left in [matchedDisease]. *)
Definition modifier_of (matched : option DiseaseProfile) : Q :=
  match matched with
  | Some p => baseLossModifier p
  | None => 1
  end.

(** What line 202 can leave in [matchedDisease]: an entry of
    [DISEASE_PROFILES], or null. *)
Definition confirmable (matched : option DiseaseProfile) : Prop :=
  match matched with
  | Some p => In p DISEASE_PROFILES
  | None => True
  end.

(** Line 205: the expectedLoss of the returned object as a function of
    the features, the sensitivity and the outcome [matched] of lines
    175-202. *)
Definition expectedLoss_given (visual : LocalVisualFeatures)
    (sensitivity : StressSensitivity) (matched : option DiseaseProfile) : Z :=
  Js.Math_round (stressHeuristic visual sensitivity * 35 * modifier_of matched).

(** A vector changed in necroticDensity only. *)
Definition with_necroticDensity (v : LocalVisualFeatures) (n : Q) : LocalVisualFeatures :=
  {| greenness := greenness v; variance := variance v; necroticDensity := n;
     redness := redness v; edgeDensity := edgeDensity v;
     zonalIntegrity := zonalIntegrity v |}.

(** A reddish, sharply textured leaf with a share [n] of dark pixels. *)
Definition rusty_leaf (n : Q) : LocalVisualFeatures :=
  {| greenness := 0.3; variance := 0.5; necroticDensity := n;
     redness := 0.7; edgeDensity := 1; zonalIntegrity := 0.5 |}.

(** The pending records a pass has to analyse: those below the retry cap. *)
Definition eligible (ls : dbService.Storage) : list CropRecord :=
  filter (fun r => (attempts r <? MAX_SYNC_ATTEMPTS)%Z) (dbService.getPendingRecords ls).

(** The number of records of a crop type. *)
Definition crop_count (n : string) (records : list CropRecord) : Z :=
  Z.of_nat (List.length (filter (fun r => String.eqb (cropType r) n) records)).

(** The fields of a record that a sync pass has no business with. *)
Definition identity_of (r : CropRecord)
    : string * Z * string * option string * option string * option string :=
  (id r, timestamp r, cropType r, imageUrl r, feedback r, lastSyncError r).

(** The entry guard of [syncOfflineRecords] lets the invocation through. *)
Definition guard_open (w : World) (t : nat) (m : Machine) : Prop :=
  isSyncActive m = false /\ onLine w t = true /\ Js.truthy_str (API_KEY w) = true.

(** What a pass that analyses [r] makes of it: the [try] branch with
    the object the orchestrator returned at some time, or the [catch]
    branch after a [null]. *)
Definition processed (w : World) (settings : UserSettings) (r r' : CropRecord) : Prop :=
  (exists t a,
      analyzeCropHealth w t (imageUrl_or_null r) (cropType r) (stressSensitivity settings)
      = Some (JsObject a)
      /\ r' = dbService.spread r (success_update r a settings))
  \/ (exists t,
        analyzeCropHealth w t (imageUrl_or_null r) (cropType r) (stressSensitivity settings)
        = Some JsNull
        /\ r' = dbService.spread r (failure_update r)).

(* END-OF-INPUTS *)
(* ================================================================== *)
(** ** Comparisons *)
(* ================================================================== *)

Lemma gt_true (x y : Q) : (x >? y) = true <-> y < x.
Proof.
  unfold Js.gt. rewrite negb_true_iff. split; intro H.
  - apply Qnot_le_lt. intro L. apply Qle_bool_iff in L. congruence.
  - destruct (Qle_bool x y) eqn:E; trivial.
    apply Qle_bool_iff in E. exfalso. apply (Qlt_not_le _ _ H E).
Qed.

Lemma gt_false (x y : Q) : (x >? y) = false <-> x <= y.
Proof.
  unfold Js.gt. rewrite negb_false_iff. apply Qle_bool_iff.
Qed.

Lemma Math_round_mono (x y : Q) : x <= y -> (Js.Math_round x <= Js.Math_round y)%Z.
Proof.
  intro H. unfold Js.Math_round. apply Qfloor_resp_le. lra.
Qed.

(* ================================================================== *)
(** ** The two inference scenarios *)
(* ================================================================== *)

(** C6.  On the vector (greenness 0.1, necroticDensity 0.7, variance 0.6,
    redness 0.05, edgeDensity 0.1, zonalIntegrity 0.3) under Standard
    sensitivity the best match is Late Blight, with a normalised score above
    0.45 and strictly above the score of each of the four other profiles;
    the stress heuristic is 0.78, and the analysis reports
    expectedLoss = round(0.78 * 35 * 2.0) = 55, riskLevel High and
    treatmentUrgency Immediate. *)
Theorem blight_scenario :
  fst (bestMatch blight_features) = Some LateBlight
  /\ snd (bestMatch blight_features) == finalScore blight_features LateBlight
  /\ 0.45 < finalScore blight_features LateBlight
  /\ matchedDisease blight_features = Some LateBlight
  /\ finalScore blight_features LeafRust < finalScore blight_features LateBlight
  /\ finalScore blight_features PowderyMildew < finalScore blight_features LateBlight
  /\ finalScore blight_features Chlorosis < finalScore blight_features LateBlight
  /\ finalScore blight_features BacterialLeafSpot < finalScore blight_features LateBlight
  /\ stressHeuristic blight_features Standard == 0.78
  /\ Js.Math_round (0.78 * 35 * 2.0) = 55%Z
  /\ expectedLoss (localAnalysis blight_features Standard) = Some (inject_Z 55)
  /\ riskLevel (localAnalysis blight_features Standard) = Some RiskHigh
  /\ treatmentUrgency (localAnalysis blight_features Standard) = Some Immediate.
Proof.
  repeat split; vm_compute; reflexivity.
Qed.

(** C7.  With no image the default vector is used; under Standard
    sensitivity every profile scores below 0.45, no disease is confirmed,
    riskLevel is Low and symptomlessStressDetected is false. *)
Theorem default_vector_is_healthy (w : World) (cropType : string) :
  exists a,
    runLocalInference w None cropType Standard = Some a
    /\ a = localAnalysis default_features Standard
    /\ Forall (fun p => finalScore default_features p < 0.45) DISEASE_PROFILES
    /\ matchedDisease default_features = None
    /\ riskLevel a = Some RiskLow
    /\ symptomlessStressDetected a = Some false.
Proof.
  exists (localAnalysis default_features Standard).
  split; [reflexivity|]. split; [reflexivity|].
  split; [repeat constructor; vm_compute; reflexivity|].
  repeat split; vm_compute; reflexivity.
Qed.

(* ================================================================== *)
(** ** Entry guard of the sync pass *)
(* ================================================================== *)

(** C9.  Invoked while a pass is in progress, while offline, or without a
    credential, [syncOfflineRecords] returns (its promise settles, no
    exception) and leaves the store and the flag [isSyncActive] as they
    were; it hands no record to the orchestrator and reports nothing. *)
Theorem guarded_sync_is_noop (w : World) (onProgress : bool) (t : nat) (m : Machine) :
  isSyncActive m = true \/ onLine w t = false \/ Js.truthy_str (API_KEY w) = false ->
  syncOfflineRecords w onProgress t m
  = {| final := m; calls := []; progress := []; returned := true |}.
Proof.
  intros [H | [H | H]]; unfold syncOfflineRecords; rewrite H; simpl.
  - reflexivity.
  - rewrite orb_true_r. reflexivity.
  - rewrite orb_true_r. reflexivity.
Qed.

Lemma guarded_sync_is_noop_witness :
  syncOfflineRecords failing_world true 0 busy_machine
  = {| final := busy_machine; calls := []; progress := []; returned := true |}.
Proof.
  apply guarded_sync_is_noop. left. reflexivity.
Defined.

(* ================================================================== *)
(** ** The orchestrator and the remote reply *)
(* ================================================================== *)

(** C4 fails as stated.  The remote service answers with the empty JSON
    object, which lacks every required field of the schema;
    [analyzeCropHealth] returns that object, not the local composite. *)
Lemma empty_reply_is_returned :
  analyzeCropHealth (answering_world (Some "{}"%string)) 0 None "Potato" Standard
    = Some (JsObject empty_object)
  /\ ANALYSIS_SCHEMA empty_object = false
  /\ option_map JsObject
       (runLocalInference (answering_world (Some "{}"%string)) None "Potato" Standard)
     <> Some (JsObject empty_object).
Proof.
  split; [reflexivity|]. split; [reflexivity|].
  vm_compute. discriminate.
Qed.

(** C4, as the code has it.  Online and with a credential, the local
    composite is returned when the remote call throws or when the reply
    text is not JSON; a reply that parses is returned as parsed, whether
    or not it has the required fields, and a reply without text (or with
    the empty text) is parsed as the text of the empty object. *)
Theorem remote_reply_handling (w : World) (t : nat) (imageData : option string)
    (cropType : string) (sensitivity : StressSensitivity) :
  onLine w t = true ->
  Js.truthy_str (API_KEY w) = true ->
  let result := analyzeCropHealth w t imageData cropType sensitivity in
  let local := option_map JsObject (runLocalInference w imageData cropType sensitivity) in
  (generateContent w t imageData cropType sensitivity = Rejects -> result = local)
  /\ (forall text,
        generateContent w t imageData cropType sensitivity = Responds text ->
        JSON_parse w (text_or_empty_object text) = SyntaxError -> result = local)
  /\ (forall text v,
        generateContent w t imageData cropType sensitivity = Responds text ->
        JSON_parse w (text_or_empty_object text) = Parsed v -> result = Some v)
  /\ text_or_empty_object None = "{}"%string
  /\ text_or_empty_object (Some EmptyString) = "{}"%string.
Proof.
  intros Hon Hkey result local. subst result local.
  unfold analyzeCropHealth. rewrite Hon, Hkey. simpl.
  repeat split.
  - intros ->. reflexivity.
  - intros text -> ->. reflexivity.
  - intros text v -> ->. reflexivity.
Qed.

Lemma remote_reply_handling_witness :
  analyzeCropHealth (answering_world (Some mild_json)) 0 None "Potato" Standard
  = Some (JsObject mild_analysis).
Proof.
  refine (proj1 (proj2 (proj2
    (@remote_reply_handling (answering_world (Some mild_json)) 0%nat None
       "Potato"%string Standard eq_refl eq_refl))) (Some mild_json) _ eq_refl _).
  vm_compute. reflexivity.
Defined.

(* ================================================================== *)
(** ** One pass against a failing remote service *)
(* ================================================================== *)

(** C1, on the code.  Online, with a credential, every remote call
    throwing: [analyzeCropHealth] catches the failure and answers with the
    local analysis, so the pass takes its [try] branch.  The capped record
    is skipped and unchanged; the record with counter 0 ends with counter
    1, but with its pending flag cleared, its analysis replaced by the
    local analysis of the default vector and its status recomputed. *)
Theorem failing_pass_outcome :
  let pass := syncOfflineRecords failing_world false 0 two_pending in
  returned pass = true
  /\ isSyncActive (final pass) = false
  /\ calls pass = [fresh_record]
  /\ records_of (final pass)
     = [ capped_record;
         {| id := id fresh_record; timestamp := timestamp fresh_record;
            cropType := cropType fresh_record; imageUrl := None;
            status := HEALTHY;
            analysis := localAnalysis default_features Standard;
            feedback := None; isPendingSync := Some false;
            syncAttempts := Some 1%Z; lastSyncError := None |} ]
  /\ localAnalysis default_features Standard <> analysis fresh_record.
Proof.
  repeat split; try (vm_compute; reflexivity).
  vm_compute. discriminate.
Qed.

(* ================================================================== *)
(** ** The store under [updateRecord] *)
(* ================================================================== *)

Lemma getRecords_updateRecord (i : string) (u : PartialCropRecord) (ls : dbService.Storage) :
  dbService.getRecords (dbService.updateRecord i u ls)
  = map (fun r => if String.eqb (id r) i then dbService.spread r u else r)
        (dbService.getRecords ls).
Proof. reflexivity. Qed.

Lemma updateRecord_other (i : string) (u : PartialCropRecord) (ls : dbService.Storage)
    (k : nat) (x : CropRecord) :
  nth_error (dbService.getRecords ls) k = Some x ->
  id x <> i ->
  nth_error (dbService.getRecords (dbService.updateRecord i u ls)) k = Some x.
Proof.
  intros Hk Hid. rewrite getRecords_updateRecord, nth_error_map, Hk. simpl.
  apply String.eqb_neq in Hid. rewrite Hid. reflexivity.
Qed.

Lemma updateRecord_nth (i : string) (u : PartialCropRecord) (ls : dbService.Storage)
    (k : nat) (x : CropRecord) :
  nth_error (dbService.getRecords ls) k = Some x ->
  nth_error (dbService.getRecords (dbService.updateRecord i u ls)) k
  = Some (if String.eqb (id x) i then dbService.spread x u else x).
Proof.
  intros Hk. rewrite getRecords_updateRecord, nth_error_map, Hk. reflexivity.
Qed.

Lemma store_report (b : bool) (p : SyncProgress) (l : Loop) :
  store (report b p l) = store l.
Proof. destruct b; reflexivity. Qed.

Lemma handed_report (b : bool) (p : SyncProgress) (l : Loop) :
  handed (report b p l) = handed l.
Proof. destruct b; reflexivity. Qed.

(** Two distinct records of a store with unique ids have distinct ids. *)
Lemma unique_ids_distinct (db : list CropRecord) (k : nat) (x r : CropRecord) :
  NoDup (map id db) ->
  nth_error db k = Some x -> In r db -> r <> x -> id r <> id x.
Proof.
  intros Hnd Hk Hin Hne Heq.
  apply In_nth_error in Hin. destruct Hin as [j Hj].
  assert (Hjk : j = k).
  { apply (proj1 (NoDup_nth_error (map id db)) Hnd).
    - rewrite length_map. apply nth_error_Some. congruence.
    - rewrite !nth_error_map, Hj, Hk. simpl. congruence. }
  subst j. congruence.
Qed.

(* ================================================================== *)
(** ** Invariants of the loop *)
(* ================================================================== *)

Section Loop.

Variable w : World.
Variable settings : UserSettings.
Variable onProgress : bool.
Variable length : Z.

(** A stored record keeps its value through the rest of the loop when no
    record still to be analysed bears its id. *)
Lemma sync_loop_frame (pending : list CropRecord) :
  forall (i : Z) (l l' : Loop) (fin : bool),
    sync_loop w settings onProgress length i pending l = (l', fin) ->
    forall (k : nat) (x : CropRecord),
      nth_error (dbService.getRecords (store l)) k = Some x ->
      (forall r, In r pending -> (attempts r < MAX_SYNC_ATTEMPTS)%Z -> id r <> id x) ->
      nth_error (dbService.getRecords (store l')) k = Some x.
Proof.
  induction pending as [|record rest IH]; intros i l l' fin Hrun k x Hk Hfresh.
  - simpl in Hrun. inversion Hrun; subst. exact Hk.
  - simpl in Hrun.
    destruct (attempts record >=? MAX_SYNC_ATTEMPTS)%Z eqn:Hcap.
    + eapply IH; eauto. intros r Hr. apply Hfresh. right. exact Hr.
    + assert (Hid : id x <> id record).
      { intro E. apply (Hfresh record); [left; reflexivity| |congruence].
        rewrite Z.geb_leb in Hcap. apply Z.leb_gt in Hcap. exact Hcap. }
      assert (Hrest : forall r, In r rest ->
                (attempts r < MAX_SYNC_ATTEMPTS)%Z -> id r <> id x).
      { intros r Hr. apply Hfresh. right. exact Hr. }
      destruct (analyzeCropHealth w _ _ _ _) as [[|cloudResult]|].
      * eapply IH; [exact Hrun| |exact Hrest]. simpl.
        apply updateRecord_other; [|exact Hid].
        rewrite store_report. exact Hk.
      * eapply IH; [exact Hrun| |exact Hrest]. simpl.
        apply updateRecord_other; [|exact Hid].
        rewrite store_report. exact Hk.
      * inversion Hrun; subst. simpl. rewrite store_report. exact Hk.
Qed.

(** Only records below the retry cap are handed to the orchestrator. *)
Lemma sync_loop_handed (pending : list CropRecord) :
  forall (i : Z) (l l' : Loop) (fin : bool),
    sync_loop w settings onProgress length i pending l = (l', fin) ->
    forall r, In r (handed l') ->
      In r (handed l) \/ (In r pending /\ (attempts r < MAX_SYNC_ATTEMPTS)%Z).
Proof.
  induction pending as [|record rest IH]; intros i l l' fin Hrun r Hr.
  - simpl in Hrun. inversion Hrun; subst. left. exact Hr.
  - simpl in Hrun.
    destruct (attempts record >=? MAX_SYNC_ATTEMPTS)%Z eqn:Hcap.
    + destruct (IH _ _ _ _ Hrun r Hr) as [H | [H1 H2]]; [left; exact H|].
      right. split; [right; exact H1 | exact H2].
    + rewrite Z.geb_leb in Hcap. apply Z.leb_gt in Hcap.
      assert (Hhead : forall p : SyncProgress,
                In r (handed (report onProgress p l) ++ [record]) ->
                In r (handed l) \/
                (In r (record :: rest) /\ (attempts r < MAX_SYNC_ATTEMPTS)%Z)).
      { intros p H. rewrite handed_report in H. apply in_app_or in H.
        destruct H as [H | [H | []]]; [left; exact H|].
        subst r. right. split; [left; reflexivity | exact Hcap]. }
      destruct (analyzeCropHealth w _ _ _ _) as [[|cloudResult]|].
      * destruct (IH _ _ _ _ Hrun r Hr) as [H | [H1 H2]].
        -- simpl in H. eapply Hhead. exact H.
        -- right. split; [right; exact H1 | exact H2].
      * destruct (IH _ _ _ _ Hrun r Hr) as [H | [H1 H2]].
        -- simpl in H. eapply Hhead. exact H.
        -- right. split; [right; exact H1 | exact H2].
      * inversion Hrun; subst. simpl in Hr. eapply Hhead. exact Hr.
Qed.

End Loop.

Section LoopStatus.

Variable w : World.
Variable settings : UserSettings.
Variable onProgress : bool.
Variable length : Z.

Lemma reconciled_refl (x : CropRecord) : reconciled settings x x.
Proof. left. repeat split. Qed.

Lemma reconciled_trans (x y z : CropRecord) :
  reconciled settings x y -> reconciled settings y z -> reconciled settings x z.
Proof.
  intros [[H1 [H2 H3]] | H] [[K1 [K2 K3]] | K].
  - left. repeat split; congruence.
  - right. exact K.
  - right. destruct H as [Ha Hb]. split; congruence.
  - right. exact K.
Qed.

Lemma reconciled_success (x record : CropRecord) (cloudResult : YieldAnalysis) (i : string) :
  reconciled settings x
    (if String.eqb (id x) i
     then dbService.spread x (success_update record cloudResult settings) else x).
Proof.
  destruct (String.eqb (id x) i); [|apply reconciled_refl].
  right. split; reflexivity.
Qed.

Lemma reconciled_failure (x record : CropRecord) (i : string) :
  reconciled settings x
    (if String.eqb (id x) i then dbService.spread x (failure_update record) else x).
Proof.
  destruct (String.eqb (id x) i); apply reconciled_refl || (left; repeat split).
Qed.

(** Every position of the store is reconciled with what it held when
    the loop started. *)
Lemma sync_loop_reconciles (pending : list CropRecord) :
  forall (i : Z) (l l' : Loop) (fin : bool),
    sync_loop w settings onProgress length i pending l = (l', fin) ->
    forall (k : nat) (x : CropRecord),
      nth_error (dbService.getRecords (store l)) k = Some x ->
      exists x', nth_error (dbService.getRecords (store l')) k = Some x'
                 /\ reconciled settings x x'.
Proof.
  induction pending as [|record rest IH]; intros i l l' fin Hrun k x Hk.
  - simpl in Hrun. inversion Hrun; subst. exists x. split; [exact Hk|apply reconciled_refl].
  - simpl in Hrun.
    destruct (attempts record >=? MAX_SYNC_ATTEMPTS)%Z.
    + eapply IH; eauto.
    + destruct (analyzeCropHealth w _ _ _ _) as [[|cloudResult]|].
      * edestruct (IH _ _ _ _ Hrun k) as [x' [Hx' Hr]].
        { simpl. apply updateRecord_nth. rewrite store_report. exact Hk. }
        exists x'. split; [exact Hx'|].
        eapply reconciled_trans; [apply reconciled_failure|exact Hr].
      * edestruct (IH _ _ _ _ Hrun k) as [x' [Hx' Hr]].
        { simpl. apply updateRecord_nth. rewrite store_report. exact Hk. }
        exists x'. split; [exact Hx'|].
        eapply reconciled_trans; [apply reconciled_success|exact Hr].
      * inversion Hrun; subst. simpl. rewrite store_report.
        exists x. split; [exact Hk|apply reconciled_refl].
Qed.

End LoopStatus.

(* ================================================================== *)
(** ** A whole pass *)
(* ================================================================== *)

(** Either the invocation leaves the store alone and calls nothing, or
    its store and call log are those of the loop run over the pending
    records. *)
Lemma pass_cases (w : World) (onProgress : bool) (t : nat) (m : Machine) :
  let pass := syncOfflineRecords w onProgress t m in
  let pending := dbService.getPendingRecords (localStorage m) in
  (localStorage (final pass) = localStorage m /\ calls pass = [])
  \/ (exists l' fin,
        sync_loop w (dbService.getSettings (localStorage m)) onProgress
          (Z.of_nat (List.length pending)) 0%Z pending
          {| now := S t; store := localStorage m; handed := []; reported := [] |}
        = (l', fin)
        /\ localStorage (final pass) = store l'
        /\ calls pass = handed l').
Proof.
  intros pass pending. subst pass. unfold syncOfflineRecords.
  destruct (isSyncActive m || negb (onLine w t) || negb (Js.truthy_str (API_KEY w))).
  - left. split; reflexivity.
  - fold pending. destruct pending as [|p ps] eqn:E.
    + left. split; reflexivity.
    + right.
      destruct (sync_loop w _ onProgress _ 0%Z (p :: ps) _) as [l' fin] eqn:Hrun.
      exists l', fin. split; [reflexivity|].
      destruct fin; simpl.
      * rewrite store_report, handed_report. split; reflexivity.
      * split; reflexivity.
Qed.

(** A record whose id no pending record below the cap bears is left as
    it is, whatever the ids of the other records. *)
Lemma pass_frame (w : World) (onProgress : bool) (t : nat) (m : Machine)
    (k : nat) (x : CropRecord) :
  nth_error (records_of m) k = Some x ->
  (forall r, In r (dbService.getPendingRecords (localStorage m)) ->
             (attempts r < MAX_SYNC_ATTEMPTS)%Z -> id r <> id x) ->
  nth_error (records_of (final (syncOfflineRecords w onProgress t m))) k = Some x.
Proof.
  intros Hk Hfresh. unfold records_of in *.
  destruct (pass_cases w onProgress t m) as [[Hs _] | [l' [fin [Hrun [Hs _]]]]];
    rewrite Hs; [exact Hk|].
  eapply sync_loop_frame; [exact Hrun|exact Hk|exact Hfresh].
Qed.

(* ================================================================== *)
(** ** Frame and retry cap *)
(* ================================================================== *)

(** C10.  In a store whose records have unique ids (the data model's
    invariant, on which update by id relies), a record whose
    [isPendingSync] flag is false or absent holds the same value, at the
    same position, after an invocation of [syncOfflineRecords] as before,
    whether the pass completes or hangs on a call that never settles. *)
Theorem non_pending_records_unchanged (w : World) (onProgress : bool) (t : nat)
    (m : Machine) (k : nat) (x : CropRecord) :
  NoDup (map id (records_of m)) ->
  nth_error (records_of m) k = Some x ->
  Js.truthy (isPendingSync x) = false ->
  nth_error (records_of (final (syncOfflineRecords w onProgress t m))) k = Some x.
Proof.
  intros Hnd Hk Hnp. apply pass_frame; [exact Hk|].
  intros r Hr _. unfold dbService.getPendingRecords in Hr.
  apply filter_In in Hr. destruct Hr as [Hin Hp].
  eapply unique_ids_distinct; eauto. congruence.
Qed.

Lemma non_pending_records_unchanged_witness :
  nth_error (records_of (final (syncOfflineRecords
     (answering_world (Some mild_json)) true 0 mixed_store))) 0 = Some synced_record.
Proof.
  apply non_pending_records_unchanged.
  - repeat constructor; simpl; intuition discriminate.
  - reflexivity.
  - reflexivity.
Defined.

(** C8.  In a store with unique ids, a record whose attempt counter has
    reached the cap of 3 (a pending one in particular) is not among the
    records handed to [analyzeCropHealth] during the invocation, and holds
    the same value afterwards; the world, hence the connectivity at every
    moment of the pass, is arbitrary. *)
Theorem capped_records_skipped (w : World) (onProgress : bool) (t : nat)
    (m : Machine) (k : nat) (x : CropRecord) :
  NoDup (map id (records_of m)) ->
  nth_error (records_of m) k = Some x ->
  (MAX_SYNC_ATTEMPTS <= attempts x)%Z ->
  ~ In x (calls (syncOfflineRecords w onProgress t m))
  /\ nth_error (records_of (final (syncOfflineRecords w onProgress t m))) k = Some x.
Proof.
  intros Hnd Hk Hcap. split.
  - intro Hin.
    destruct (pass_cases w onProgress t m) as [[_ Hc] | [l' [fin [Hrun [_ Hc]]]]];
      rewrite Hc in Hin; [destruct Hin|].
    destruct (sync_loop_handed _ _ _ _ _ _ _ Hrun x Hin) as [[] | [_ Hlt]]. lia.
  - apply pass_frame; [exact Hk|].
    intros r Hr Hlt. unfold dbService.getPendingRecords in Hr.
    apply filter_In in Hr. destruct Hr as [Hin _].
    eapply unique_ids_distinct; eauto. intro E. subst r. lia.
Qed.

Lemma capped_records_skipped_witness :
  ~ In capped_record (calls (syncOfflineRecords failing_world true 0 two_pending))
  /\ nth_error (records_of (final (syncOfflineRecords failing_world true 0 two_pending))) 0
     = Some capped_record.
Proof.
  apply capped_records_skipped.
  - repeat constructor; simpl; intuition discriminate.
  - reflexivity.
  - vm_compute. discriminate.
Defined.

(* ================================================================== *)
(** ** The recomputed status *)
(* ================================================================== *)

Lemma gt_undef_iff (a : YieldAnalysis) (q : Q) :
  Js.gt_undef (expectedLoss a) q = true <-> loss_exceeds a q.
Proof.
  unfold Js.gt_undef, loss_exceeds. destruct (expectedLoss a) as [l|].
  - rewrite gt_true. split.
    + intro H. exists l. split; [reflexivity | exact H].
    + intros [l' [E H]]. inversion E; subst. exact H.
  - split; [discriminate|]. intros [l' [E _]]. discriminate.
Qed.

Lemma gt_undef_not (a : YieldAnalysis) (q : Q) :
  Js.gt_undef (expectedLoss a) q = false <-> ~ loss_exceeds a q.
Proof.
  rewrite <- gt_undef_iff. destruct (Js.gt_undef (expectedLoss a) q); split;
    congruence || (intro H; exfalso; apply H; reflexivity) || discriminate.
Qed.

(** The nested conditional of the source, as a three-tier rule. *)
Lemma recomputed_status_tiers (a : YieldAnalysis) (settings : UserSettings) :
  let st := recomputed_status a settings in
  (loss_exceeds a (insuranceThreshold settings) -> st = CRITICAL)
  /\ (~ loss_exceeds a (insuranceThreshold settings) ->
      loss_exceeds a 5 \/ symptomlessStressDetected a = Some true ->
      (loss_exceeds a 15 -> st = DISEASED) /\ (~ loss_exceeds a 15 -> st = STRESSED))
  /\ (~ loss_exceeds a (insuranceThreshold settings) ->
      ~ loss_exceeds a 5 -> symptomlessStressDetected a <> Some true ->
      st = HEALTHY).
Proof.
  intro st. subst st. unfold recomputed_status.
  split; [|split].
  - intro Hi. apply gt_undef_iff in Hi. rewrite Hi. reflexivity.
  - intros Hi Hmid. apply gt_undef_not in Hi. rewrite Hi.
    assert (Hor : Js.gt_undef (expectedLoss a) 5
                  || Js.truthy (symptomlessStressDetected a) = true).
    { destruct Hmid as [H5 | Hs].
      - apply gt_undef_iff in H5. rewrite H5. reflexivity.
      - rewrite Hs. apply orb_true_r. }
    rewrite Hor. split; intro H15.
    + apply gt_undef_iff in H15. rewrite H15. reflexivity.
    + apply gt_undef_not in H15. rewrite H15. reflexivity.
  - intros Hi H5 Hs. apply gt_undef_not in Hi, H5. rewrite Hi, H5.
    destruct (symptomlessStressDetected a) as [[|]|]; simpl; congruence.
Qed.

(** C2 fails as stated.  A successfully re-analysed record with a loss of
    10 percent and no symptomless stress is stored as Stressed, where the
    rule with the middle threshold at 15 gives Healthy. *)
Lemma mild_loss_is_stressed :
  let pass := syncOfflineRecords (answering_world (Some mild_json)) false 0 one_pending in
  let settings := dbService.getSettings (localStorage one_pending) in
  exists r',
    records_of (final pass) = [r']
    /\ returned pass = true
    /\ analysis r' = mild_analysis
    /\ isPendingSync r' = Some false
    /\ status r' = STRESSED
    /\ spec_status (analysis r') settings = HEALTHY
    /\ status r' <> spec_status (analysis r') settings.
Proof.
  eexists. split; [vm_compute; reflexivity|].
  repeat split; try (vm_compute; reflexivity).
  vm_compute. discriminate.
Qed.

(** C2, as the code has it.  A record that was pending before an
    invocation of [syncOfflineRecords] and is no longer pending after it
    (it was re-analysed successfully) has the status given by the
    three-tier rule on the analysis it now holds: Critical when
    expectedLoss exceeds the insuranceThreshold; otherwise, when
    expectedLoss > 5 or symptomlessStressDetected is true, Diseased if
    expectedLoss > 15 and Stressed if not; Healthy in the remaining
    cases. *)
Theorem synced_status_three_tier (w : World) (onProgress : bool) (t : nat)
    (m : Machine) (k : nat) (r r' : CropRecord) :
  nth_error (records_of m) k = Some r ->
  Js.truthy (isPendingSync r) = true ->
  nth_error (records_of (final (syncOfflineRecords w onProgress t m))) k = Some r' ->
  Js.truthy (isPendingSync r') = false ->
  let a := analysis r' in
  let settings := dbService.getSettings (localStorage m) in
  (loss_exceeds a (insuranceThreshold settings) -> status r' = CRITICAL)
  /\ (~ loss_exceeds a (insuranceThreshold settings) ->
      loss_exceeds a 5 \/ symptomlessStressDetected a = Some true ->
      (loss_exceeds a 15 -> status r' = DISEASED)
      /\ (~ loss_exceeds a 15 -> status r' = STRESSED))
  /\ (~ loss_exceeds a (insuranceThreshold settings) ->
      ~ loss_exceeds a 5 -> symptomlessStressDetected a <> Some true ->
      status r' = HEALTHY).
Proof.
  intros Hk Hp Hk' Hnp a settings.
  assert (Hrec : reconciled settings r r').
  { unfold records_of in *.
    destruct (pass_cases w onProgress t m) as [[Hs _] | [l' [fin [Hrun [Hs _]]]]];
      rewrite Hs in Hk'.
    - assert (r' = r) by congruence. subst r'. apply reconciled_refl.
    - destruct (sync_loop_reconciles _ _ _ _ _ _ _ Hrun k Hk) as [x' [Hx' Hr]].
      assert (x' = r') by congruence. subst x'. exact Hr. }
  destruct Hrec as [[_ [_ Hsame]] | [_ Hst]].
  - rewrite Hsame in Hnp. congruence.
  - rewrite Hst. apply recomputed_status_tiers.
Qed.

Lemma synced_status_three_tier_witness :
  exists r',
    nth_error (records_of (final (syncOfflineRecords
       (answering_world (Some mild_json)) false 0 one_pending))) 0 = Some r'
    /\ status r' = STRESSED.
Proof.
  eexists. split; [vm_compute; reflexivity|].
  refine (proj2 (proj1 (proj2
    (@synced_status_three_tier (answering_world (Some mild_json)) false 0%nat
       one_pending 0%nat fresh_record _ eq_refl eq_refl eq_refl eq_refl)) _ _) _).
  - intros [l [E H]]. vm_compute in E. inversion E; subst. vm_compute in H. discriminate.
  - left. exists 10. split; [reflexivity | vm_compute; reflexivity].
  - intros [l [E H]]. vm_compute in E. inversion E; subst. vm_compute in H. discriminate.
Defined.

(* ================================================================== *)
(** ** The feature extractor *)
(* ================================================================== *)

Lemma quad_ind (P : list byte -> Prop) :
  P [] -> (forall a, P [a]) -> (forall a b, P [a; b]) -> (forall a b c, P [a; b; c]) ->
  (forall a b c d rest, P rest -> P (a :: b :: c :: d :: rest)) ->
  forall l, P l.
Proof.
  intros H0 H1 H2 H3 H4.
  assert (Hn : forall n l, (List.length l <= n)%nat -> P l).
  { induction n as [|n IH]; intros l Hl.
    - destruct l; [exact H0 | simpl in Hl; lia].
    - destruct l as [|a [|b [|c [|d rest]]]]; auto.
      apply H4. apply IH. simpl in Hl. lia. }
  intro l. apply (Hn (List.length l)). lia.
Qed.

Lemma isCenter_central (pixelIdx : Z) :
  (let x := inject_Z (pixelIdx mod size) in
   let y := inject_Z (pixelIdx / size) in
   (x >? centerLimit) && (x <? centerMax) && (y >? centerLimit) && (y <? centerMax))
  = central pixelIdx.
Proof.
  assert (Hlo : forall a : Z, (inject_Z a >? centerLimit) = (32 <? a)%Z).
  { intro a. destruct (Z.ltb_spec 32 a).
    - apply gt_true. unfold centerLimit, Qlt. simpl. lia.
    - apply gt_false. unfold centerLimit, Qle. simpl. lia. }
  assert (Hhi : forall a : Z, (inject_Z a <? centerMax) = (a <? 96)%Z).
  { intro a. unfold Js.lt. destruct (Z.ltb_spec a 96).
    - apply gt_true. unfold centerMax, Qlt. simpl. lia.
    - apply gt_false. unfold centerMax, Qle. simpl. lia. }
  cbv zeta. rewrite !Hlo, !Hhi. reflexivity.
Qed.

Lemma Math_abs_nonneg (q : Q) : 0 <= Js.Math_abs q.
Proof. apply Qabs_nonneg. Qed.

(** What the per-pixel loop adds to its accumulators. *)
Lemma pixel_loop_counts (pixels : list byte) :
  forall (pixelIdx : Z) (c : Counters),
    let c' := pixel_loop pixels pixelIdx c in
    centerGreen c' = (centerGreen c + count_green central pixels pixelIdx)%Z
    /\ edgeGreen c' = (edgeGreen c + count_green (fun i => negb (central i)) pixels pixelIdx)%Z
    /\ (green c <= green c')%Z
    /\ (4 * (green c' - green c) <= Z.of_nat (List.length pixels))%Z
    /\ (dark c <= dark c')%Z
    /\ (4 * (dark c' - dark c) <= Z.of_nat (List.length pixels))%Z
    /\ (red c <= red c')%Z
    /\ (4 * (red c' - red c) <= Z.of_nat (List.length pixels))%Z
    /\ totalVar c <= totalVar c'.
Proof.
  induction pixels as [|a|a b|a b c0|pr pg pb pa rest IH] using quad_ind;
    intros pixelIdx c; cbv zeta;
    try (cbn [pixel_loop count_green List.length];
         repeat (split; [lia|]); apply Qle_refl).
  change (pixel_loop (pr :: pg :: pb :: pa :: rest) pixelIdx c)
    with (pixel_loop rest (pixelIdx + 1)%Z (pixel_body pr pg pb pixelIdx c)).
  specialize (IH (pixelIdx + 1)%Z (pixel_body pr pg pb pixelIdx c)).
  cbv zeta in IH.
  destruct IH as (Hc & He & Hg1 & Hg2 & Hd1 & Hd2 & Hr1 & Hr2 & Hv).
  rewrite Hc, He. clear Hc He.
  change (count_green ?z (pr :: pg :: pb :: pa :: rest) pixelIdx)
    with ((if green_pixel pr pg pb && z pixelIdx then 1 else 0)
          + count_green z rest (pixelIdx + 1))%Z.
  assert (Hlen : Z.of_nat (List.length (pr :: pg :: pb :: pa :: rest))
                 = (4 + Z.of_nat (List.length rest))%Z).
  { cbn [List.length]. lia. }
  rewrite Hlen. clear Hlen.
  unfold pixel_body in *. cbn [green dark red totalVar centerGreen edgeGreen] in *.
  rewrite isCenter_central in *.
  fold (green_pixel pr pg pb) in *.
  set (lum := 0.299 * channel pr + 0.587 * channel pg + 0.114 * channel pb) in *.
  set (isRed := (channel pr >? channel pg * 1.3) && (channel pr >? channel pb * 1.2)) in *.
  assert (Hvar : totalVar c
                 <= totalVar c + (Js.Math_abs (channel pr - channel pg)
                                  + Js.Math_abs (channel pg - channel pb))).
  { pose proof (Math_abs_nonneg (channel pr - channel pg)).
    pose proof (Math_abs_nonneg (channel pg - channel pb)). lra. }
  destruct (green_pixel pr pg pb), (central pixelIdx), isRed, (lum <? 70);
    cbn [andb negb] in *;
    (repeat split; try lia; eapply Qle_trans; [exact Hvar | exact Hv]).
Qed.

Lemma edge_loop_nonneg (pixels : list byte) (edges : Z) :
  (edges <= edge_loop pixels edges)%Z.
Proof.
  assert (Hn : forall n l e, (List.length l <= n)%nat -> (e <= edge_loop l e)%Z).
  { induction n as [|n IH]; intros l e Hl.
    - destruct l; [simpl; lia | simpl in Hl; lia].
    - destruct l as [|p0 [|a1 [|a2 [|a3 [|p4 [|a5 [|a6 [|a7 rest]]]]]]]];
        try (simpl; lia).
      cbn [edge_loop]. destruct rest as [|b rest']; [lia|].
      set (e' := if Js.Math_abs (channel p0 - channel p4) >? 40
                 then (e + 1)%Z else e).
      assert (e <= e')%Z by (subst e'; destruct (_ >? _); lia).
      specialize (IH (b :: rest') e'). simpl in Hl, IH.
      assert (e' <= edge_loop (b :: rest') e')%Z by (apply IH; lia).
      lia. }
  apply (Hn (List.length pixels)). lia.
Qed.

Lemma count_ratio_unit (g : Z) :
  (0 <= g)%Z -> (g <= pixelCount)%Z ->
  unit_interval (inject_Z g / inject_Z pixelCount).
Proof.
  intros H0 H1. change pixelCount with 16384%Z in *.
  unfold unit_interval, Qdiv, Qle, Qmult, Qinv. simpl. lia.
Qed.

Lemma min_one_unit (q : Q) : 0 <= q -> unit_interval (Js.Math_min 1 q).
Proof.
  intro H. split.
  - apply Q.min_glb; [lra | exact H].
  - apply Q.le_min_l.
Qed.

Lemma count_green_nonneg (zone : Z -> bool) (pixels : list byte) :
  forall pixelIdx, (0 <= count_green zone pixels pixelIdx)%Z.
Proof.
  induction pixels as [|a|a b|a b c0|pr pg pb pa rest IH] using quad_ind;
    intro pixelIdx; cbn [count_green]; try lia.
  specialize (IH (pixelIdx + 1)%Z).
  destruct (green_pixel pr pg pb && zone pixelIdx); lia.
Qed.

Lemma scaled_nonneg (q d : Q) : 0 <= q -> 0 < d -> 0 <= q / d.
Proof.
  intros Hq Hd. apply Qle_shift_div_l; [exact Hd | lra].
Qed.

Lemma no_context_features_unit :
  unit_interval (greenness no_context_features)
  /\ unit_interval (variance no_context_features)
  /\ unit_interval (necroticDensity no_context_features)
  /\ unit_interval (redness no_context_features)
  /\ unit_interval (edgeDensity no_context_features)
  /\ unit_interval (zonalIntegrity no_context_features).
Proof.
  unfold unit_interval. simpl. repeat split; lra.
Qed.

(** The features measured on a canvas buffer. *)
Lemma onload_ranges (pixels : list byte) :
  canvas_buffer pixels ->
  let v := onload pixels in
  unit_interval (greenness v)
  /\ unit_interval (variance v)
  /\ unit_interval (necroticDensity v)
  /\ unit_interval (redness v)
  /\ unit_interval (edgeDensity v)
  /\ 0 <= zonalIntegrity v
  /\ ((0 < peripheryGreenCount pixels)%Z ->
      zonalIntegrity v
      = inject_Z (centerGreenCount pixels) / inject_Z (peripheryGreenCount pixels))
  /\ (peripheryGreenCount pixels = 0%Z -> zonalIntegrity v = 1).
Proof.
  intros Hbuf v. subst v. unfold canvas_buffer in Hbuf.
  destruct (pixel_loop_counts pixels 0%Z zero)
    as (Hc & He & Hg1 & Hg2 & Hd1 & Hd2 & Hr1 & Hr2 & Hv).
  cbv zeta in *. cbn [zero green dark red totalVar centerGreen edgeGreen] in *.
  rewrite Z.add_0_l in Hc, He.
  fold (centerGreenCount pixels) in Hc. fold (peripheryGreenCount pixels) in He.
  pose proof (count_green_nonneg central pixels 0%Z) as Hc0.
  pose proof (count_green_nonneg (fun i => negb (central i)) pixels 0%Z) as He0.
  fold (centerGreenCount pixels) in Hc0. fold (peripheryGreenCount pixels) in He0.
  pose proof (edge_loop_nonneg pixels 0%Z) as Hedges.
  unfold onload.
  cbn [greenness variance necroticDensity redness edgeDensity zonalIntegrity].
  rewrite Hc, He.
  split; [apply count_ratio_unit; lia|].
  split; [apply min_one_unit; apply scaled_nonneg; [exact Hv | reflexivity]|].
  split; [apply count_ratio_unit; lia|].
  split; [apply count_ratio_unit; lia|].
  split.
  { apply min_one_unit. apply scaled_nonneg; [|reflexivity].
    change 0 with (inject_Z 0). rewrite <- Zle_Qle. exact Hedges. }
  destruct (Z.gtb_spec (peripheryGreenCount pixels) 0) as [Hpos | Hzero].
  - split; [|split; [reflexivity | lia]].
    apply scaled_nonneg.
    + change 0 with (inject_Z 0). rewrite <- Zle_Qle. exact Hc0.
    + change 0 with (inject_Z 0). rewrite <- Zlt_Qlt. exact Hpos.
  - split; [lra|]. split; [lia | reflexivity].
Qed.

Lemma Loaded_inj (p q : list byte) : Loaded p = Loaded q -> p = q.
Proof. intro E. injection E as E. exact E. Qed.

Lemma centred_leaf_canvas : canvas_buffer centred_leaf.
Proof. vm_compute. reflexivity. Qed.

(** C3, on the code.  The claim puts every component of the extracted
    vector in [0,1], zonalIntegrity saturating at 1.  On [centred_leaf],
    a 128x128 canvas with a green square on black, the centre holds 3969
    green pixels and the periphery 256, and the code returns the ratio
    3969/256 as zonalIntegrity, above 1: line 156 has no [Math.min(1, ...)],
    which variance and edgeDensity (lines 152 and 155) have. *)
Lemma zonalIntegrity_exceeds_one :
  canvas_buffer centred_leaf
  /\ extractVisualFeatures leaf_world "leaf" = Some (onload centred_leaf)
  /\ zonalIntegrity (onload centred_leaf) == 3969 # 256
  /\ ~ unit_interval (zonalIntegrity (onload centred_leaf)).
Proof.
  assert (E : zonalIntegrity (onload centred_leaf) = 3969 # 256)
    by (vm_compute; reflexivity).
  split; [exact centred_leaf_canvas|].
  split; [reflexivity|]. rewrite E.
  split; [reflexivity|].
  intros [_ H]. vm_compute in H. apply H. reflexivity.
Qed.

Lemma triple_eq {A B C : Type} (a a' : A) (b b' : B) (c c' : C) :
  (a, b, c) = (a', b', c') -> a = a' /\ b = b' /\ c = c'.
Proof. intro H. inversion H. auto. Qed.

(** The same image through the local engine: with zonalIntegrity above 1
    the stress heuristic is negative, and so are the expectedLoss and the
    stressProbability of the analysis, beside a confirmed Late Blight. *)
Lemma centred_leaf_analysis :
  exists a,
    runLocalInference leaf_world (Some "leaf"%string) "Wheat"%string Standard = Some a
    /\ diseaseDetected a = Some (name LateBlight)
    /\ expectedLoss a = Some (inject_Z (-161))
    /\ stressProbability a = Some (inject_Z (-231)).
Proof.
  exists (localAnalysis (onload centred_leaf) Standard).
  split; [reflexivity|].
  apply triple_eq. vm_compute. reflexivity.
Qed.

(** X28.  What the extractor does guarantee.  For every image, on
    whatever the browser does with it, greenness, variance,
    necroticDensity, redness and edgeDensity lie in [0,1]; zonalIntegrity
    is not negative, is the ratio centerGreenCount / peripheryGreenCount
    when peripheryGreenCount > 0 and is exactly 1 when
    peripheryGreenCount is 0. *)
Theorem extracted_features_ranges (w : World) (imageData : string)
    (v : LocalVisualFeatures) :
  (forall pixels, loadImage w imageData = Loaded pixels -> canvas_buffer pixels) ->
  extractVisualFeatures w imageData = Some v ->
  unit_interval (greenness v)
  /\ unit_interval (variance v)
  /\ unit_interval (necroticDensity v)
  /\ unit_interval (redness v)
  /\ unit_interval (edgeDensity v)
  /\ 0 <= zonalIntegrity v
  /\ (forall pixels, loadImage w imageData = Loaded pixels ->
        ((0 < peripheryGreenCount pixels)%Z ->
         zonalIntegrity v
         = inject_Z (centerGreenCount pixels) / inject_Z (peripheryGreenCount pixels))
        /\ (peripheryGreenCount pixels = 0%Z -> zonalIntegrity v = 1)).
Proof.
  intros Hbuf Hv. unfold extractVisualFeatures in Hv.
  destruct (loadImage w imageData) as [pixels| |] eqn:Hload; [| |discriminate].
  - inversion Hv; subst v. clear Hv.
    destruct (onload_ranges (Hbuf pixels eq_refl)) as (G & V & N & R & E & Z0 & Zr & Z1).
    repeat (split; [assumption|]).
    intros pixels' Hp. inversion Hp; subst pixels'. split; assumption.
  - inversion Hv; subst v. clear Hv.
    destruct no_context_features_unit as (G & V & N & R & E & Z0 & Z1).
    repeat (split; [assumption|]).
    intros pixels' Hp. discriminate.
Qed.

Lemma extracted_features_ranges_witness :
  unit_interval (greenness (onload centred_leaf)).
Proof.
  refine (proj1 (@extracted_features_ranges leaf_world "leaf"%string
                   (onload centred_leaf) _ eq_refl)).
  intros pixels E. apply Loaded_inj in E. rewrite <- E. exact centred_leaf_canvas.
Defined.

(* ================================================================== *)
(** ** Profile scores and the loss estimate *)
(* ================================================================== *)

Ltac score_form :=
  unfold finalScore;
  cbn [weights fold_left entry_step feature LeafRust LateBlight PowderyMildew Chlorosis BacterialLeafSpot];
  repeat match goal with
  | |- context [ ?c >? 0 ] =>
      let b := eval vm_compute in (c >? 0) in change (c >? 0) with b
  end;
  cbv iota;
  repeat match goal with
  | |- context [ Js.Math_abs ?c ] =>
      let a := eval vm_compute in (Js.Math_abs c) in change (Js.Math_abs c) with a
  end;
  unfold Qdiv;
  match goal with
  | |- context [ / ?d ] =>
      let i := eval vm_compute in (/ d) in change (/ d) with i
  end;
  lra.

Lemma finalScore_LeafRust v :
  finalScore v LeafRust == (redness v * 0.8 + edgeDensity v * 0.6 + variance v * 0.4) * (5 # 9).
Proof. score_form. Qed.

Lemma finalScore_LateBlight v :
  finalScore v LateBlight
  == (necroticDensity v * 0.9 + (1 - greenness v) * 0.8 + variance v * 0.7) * (5 # 12).
Proof. score_form. Qed.

Lemma finalScore_PowderyMildew v :
  finalScore v PowderyMildew
  == (variance v * 0.8 + edgeDensity v * 0.5 + (1 - greenness v) * 0.2) * (2 # 3).
Proof. score_form. Qed.

Lemma finalScore_Chlorosis v :
  finalScore v Chlorosis
  == ((1 - greenness v) * 0.9 + (1 - zonalIntegrity v) * 0.7
      + (1 - necroticDensity v) * 0.5) * (10 # 21).
Proof. score_form. Qed.

Lemma finalScore_BacterialLeafSpot v :
  finalScore v BacterialLeafSpot
  == (edgeDensity v * 0.9 + necroticDensity v * 0.5 + variance v * 0.5) * (10 # 19).
Proof. score_form. Qed.

Lemma profile_step_cases v bp ms p :
  (ms < finalScore v p /\ profile_step v (bp, ms) p = (Some p, finalScore v p))
  \/ (finalScore v p <= ms /\ profile_step v (bp, ms) p = (bp, ms)).
Proof.
  unfold profile_step. destruct (finalScore v p >? ms) eqn:E.
  - left. split; [apply gt_true; exact E | reflexivity].
  - right. split; [apply gt_false; exact E | reflexivity].
Qed.

(** The best match is the first profile, in declaration order, whose
    score is maximal. *)
Lemma bestMatch_cases v :
  0 <= finalScore v LeafRust ->
  let sR := finalScore v LeafRust in
  let sL := finalScore v LateBlight in
  let sP := finalScore v PowderyMildew in
  let sC := finalScore v Chlorosis in
  let sB := finalScore v BacterialLeafSpot in
  (bestMatch v = (Some LeafRust, sR) /\ sL <= sR /\ sP <= sR /\ sC <= sR /\ sB <= sR)
  \/ (bestMatch v = (Some LateBlight, sL) /\ sR < sL /\ sP <= sL /\ sC <= sL /\ sB <= sL)
  \/ (bestMatch v = (Some PowderyMildew, sP) /\ sR < sP /\ sL < sP /\ sC <= sP /\ sB <= sP)
  \/ (bestMatch v = (Some Chlorosis, sC) /\ sR < sC /\ sL < sC /\ sP < sC /\ sB <= sC)
  \/ (bestMatch v = (Some BacterialLeafSpot, sB) /\ sR < sB /\ sL < sB /\ sP < sB /\ sC < sB).
Proof.
  intros H0 sR sL sP sC sB. subst sR sL sP sC sB.
  unfold bestMatch, DISEASE_PROFILES. cbn [fold_left].
  destruct (profile_step_cases v None (- (1)) LeafRust) as [[H1 E1] | [H1 E1]];
    [|exfalso; lra].
  rewrite E1. clear E1.
  destruct (profile_step_cases v (Some LeafRust) (finalScore v LeafRust) LateBlight)
    as [[H2 E2] | [H2 E2]];
    rewrite E2; clear E2;
  match goal with
  | |- context [ profile_step v (?b, ?m) PowderyMildew ] =>
      destruct (profile_step_cases v b m PowderyMildew) as [[H3 E3] | [H3 E3]];
      rewrite E3; clear E3
  end;
  match goal with
  | |- context [ profile_step v (?b, ?m) Chlorosis ] =>
      destruct (profile_step_cases v b m Chlorosis) as [[H4 E4] | [H4 E4]];
      rewrite E4; clear E4
  end;
  match goal with
  | |- context [ profile_step v (?b, ?m) BacterialLeafSpot ] =>
      destruct (profile_step_cases v b m BacterialLeafSpot) as [[H5 E5] | [H5 E5]];
      rewrite E5; clear E5
  end;
  first
    [ left; split; [reflexivity | repeat split; lra]
    | right; left; split; [reflexivity | repeat split; lra]
    | right; right; left; split; [reflexivity | repeat split; lra]
    | right; right; right; left; split; [reflexivity | repeat split; lra]
    | right; right; right; right; split; [reflexivity | repeat split; lra] ].
Qed.

Lemma LeafRust_score_nonneg v : unit_features v -> 0 <= finalScore v LeafRust.
Proof.
  intros (_ & [V0 _] & _ & [R0 _] & [E0 _] & _).
  rewrite finalScore_LeafRust. lra.
Qed.

(** The confirmed disease: none when every score is at most 0.45,
    otherwise the first profile of maximal score. *)
Lemma matchedDisease_cases v :
  unit_features v ->
  let sR := finalScore v LeafRust in
  let sL := finalScore v LateBlight in
  let sP := finalScore v PowderyMildew in
  let sC := finalScore v Chlorosis in
  let sB := finalScore v BacterialLeafSpot in
  (matchedDisease v = None
   /\ sR <= 0.45 /\ sL <= 0.45 /\ sP <= 0.45 /\ sC <= 0.45 /\ sB <= 0.45)
  \/ (matchedDisease v = Some LeafRust
      /\ 0.45 < sR /\ sL <= sR /\ sP <= sR /\ sC <= sR /\ sB <= sR)
  \/ (matchedDisease v = Some LateBlight
      /\ 0.45 < sL /\ sR < sL /\ sP <= sL /\ sC <= sL /\ sB <= sL)
  \/ (matchedDisease v = Some PowderyMildew
      /\ 0.45 < sP /\ sR < sP /\ sL < sP /\ sC <= sP /\ sB <= sP)
  \/ (matchedDisease v = Some Chlorosis
      /\ 0.45 < sC /\ sR < sC /\ sL < sC /\ sP < sC /\ sB <= sC)
  \/ (matchedDisease v = Some BacterialLeafSpot
      /\ 0.45 < sB /\ sR < sB /\ sL < sB /\ sP < sB /\ sC < sB).
Proof.
  intros Hu sR sL sP sC sB. subst sR sL sP sC sB.
  unfold matchedDisease.
  destruct (bestMatch_cases (LeafRust_score_nonneg Hu))
    as [(E & H) | [(E & H) | [(E & H) | [(E & H) | (E & H)]]]];
    rewrite E; clear E; destruct H as (H1 & H2 & H3 & H4);
    match goal with
    | |- context [ ?s >? 0.45 ] =>
        destruct (s >? 0.45) eqn:T;
        [ apply gt_true in T | apply gt_false in T ]
    end;
    try (left; split; [reflexivity | repeat split; lra]).
  - right; left. split; [reflexivity | repeat split; lra].
  - right; right; left. split; [reflexivity | repeat split; lra].
  - right; right; right; left. split; [reflexivity | repeat split; lra].
  - right; right; right; right; left. split; [reflexivity | repeat split; lra].
  - right; right; right; right; right. split; [reflexivity | repeat split; lra].
Qed.

Lemma expectedLoss_localAnalysis v s :
  expectedLoss (localAnalysis v s)
  = Some (inject_Z (Js.Math_round (stressHeuristic v s * 35 * lossModifier v))).
Proof.
  unfold localAnalysis, lossModifier. destruct (bestMatch v). reflexivity.
Qed.

(** Whatever the feature vector, the best profile is one of the
    knowledge base. *)
Lemma bestMatch_in (v : LocalVisualFeatures) (p : DiseaseProfile) :
  fst (bestMatch v) = Some p -> In p DISEASE_PROFILES.
Proof.
  unfold bestMatch, DISEASE_PROFILES. cbn [fold_left].
  destruct (profile_step_cases v None (- (1)) LeafRust) as [[_ E1] | [_ E1]];
    rewrite E1; clear E1;
  match goal with
  | |- context [ profile_step v (?b, ?m) LateBlight ] =>
      destruct (profile_step_cases v b m LateBlight) as [[_ E2] | [_ E2]];
      rewrite E2; clear E2
  end;
  match goal with
  | |- context [ profile_step v (?b, ?m) PowderyMildew ] =>
      destruct (profile_step_cases v b m PowderyMildew) as [[_ E3] | [_ E3]];
      rewrite E3; clear E3
  end;
  match goal with
  | |- context [ profile_step v (?b, ?m) Chlorosis ] =>
      destruct (profile_step_cases v b m Chlorosis) as [[_ E4] | [_ E4]];
      rewrite E4; clear E4
  end;
  match goal with
  | |- context [ profile_step v (?b, ?m) BacterialLeafSpot ] =>
      destruct (profile_step_cases v b m BacterialLeafSpot) as [[_ E5] | [_ E5]];
      rewrite E5; clear E5
  end;
  cbn [fst]; intro E; inversion E; subst; simpl; tauto.
Qed.

Lemma matchedDisease_in (v : LocalVisualFeatures) (p : DiseaseProfile) :
  matchedDisease v = Some p -> In p DISEASE_PROFILES.
Proof.
  unfold matchedDisease. pose proof (@bestMatch_in v p) as H.
  destruct (bestMatch v) as [b m]. cbn [fst] in H.
  destruct (m >? 0.45); [exact H | discriminate].
Qed.

(** The profile loop and the threshold leave an entry of the knowledge
    base, or null, and line 205 is [expectedLoss_given] of it. *)
Lemma matchedDisease_confirmable (v : LocalVisualFeatures) :
  confirmable (matchedDisease v).
Proof.
  unfold confirmable. pose proof (@matchedDisease_in v) as Hin.
  destruct (matchedDisease v) as [p|]; [exact (Hin p eq_refl) | exact I].
Qed.

Lemma expectedLoss_as_given v s :
  expectedLoss (localAnalysis v s)
  = Some (inject_Z (expectedLoss_given v s (matchedDisease v))).
Proof. apply expectedLoss_localAnalysis. Qed.

(** Every multiplier the knowledge base can contribute is positive. *)
Lemma modifier_of_pos (m : option DiseaseProfile) : confirmable m -> 0 < modifier_of m.
Proof.
  destruct m as [p|]; [|reflexivity]. cbn [confirmable modifier_of].
  intros [<- | [<- | [<- | [<- | [<- | []]]]]]; reflexivity.
Qed.

(** The stress heuristic does not decrease with necroticDensity, whatever
    the other features are. *)
Lemma stressHeuristic_mono v1 v2 s :
  greenness v2 = greenness v1 ->
  zonalIntegrity v2 = zonalIntegrity v1 ->
  necroticDensity v1 <= necroticDensity v2 ->
  stressHeuristic v1 s <= stressHeuristic v2 s.
Proof.
  intros Eg Ez Hn. unfold stressHeuristic. rewrite Eg, Ez.
  destruct s; unfold sMod; lra.
Qed.

(** C5, as the code has it.  Take two feature vectors that differ only in
    necroticDensity, under the same sensitivity, and let [m1] and [m2] be
    what the profile loop and the 0.45 threshold have confirmed for them
    (an entry of DISEASE_PROFILES, or nothing).  The expectedLoss of line
    205 is not smaller for the larger necroticDensity when the confirmed
    profile is the same (or none for both), nor when the multiplier
    (the confirmed profile's baseLossModifier, or 1) does not drop and the
    stress heuristic of the smaller one is not negative.  Nothing is said
    of a change of the confirmed profile that lowers the multiplier.  The
    statement does not depend on how the scores compare: it holds of every
    outcome of the loop, so also where two scores are as good as tied. *)
Theorem expectedLoss_monotone_given_match v1 v2 s m1 m2 :
  confirmable m1 -> confirmable m2 ->
  greenness v2 = greenness v1 ->
  variance v2 = variance v1 ->
  redness v2 = redness v1 ->
  edgeDensity v2 = edgeDensity v1 ->
  zonalIntegrity v2 = zonalIntegrity v1 ->
  necroticDensity v1 <= necroticDensity v2 ->
  m1 = m2 \/ (modifier_of m1 <= modifier_of m2 /\ 0 <= stressHeuristic v1 s) ->
  (expectedLoss_given v1 s m1 <= expectedLoss_given v2 s m2)%Z.
Proof.
  intros C1 C2 Eg Ev Er Ee Ez Hn Hmul.
  unfold expectedLoss_given. apply Math_round_mono.
  pose proof (@stressHeuristic_mono v1 v2 s Eg Ez Hn) as Hx.
  pose proof (@modifier_of_pos m1 C1) as K1.
  set (x1 := stressHeuristic v1 s) in *. set (x2 := stressHeuristic v2 s) in *.
  destruct Hmul as [<- | [Hk Hx0]].
  - set (k := modifier_of m1) in *.
    assert (0 <= (x2 - x1) * k) by (apply Qmult_le_0_compat; lra).
    lra.
  - set (k1 := modifier_of m1) in *. set (k2 := modifier_of m2) in *.
    assert (0 <= (x2 - x1) * k1) by (apply Qmult_le_0_compat; lra).
    assert (0 <= x2 * (k2 - k1)) by (apply Qmult_le_0_compat; lra).
    lra.
Qed.

(** C5 fails as stated.  Raising necroticDensity from 0.55 to 0.6 on
    [rusty_leaf] moves the confirmed disease from Leaf Rust (modifier 1.2)
    to Bacterial Leaf Spot (modifier 1.1), and expectedLoss from 25 to
    24. *)
Lemma rust_to_leaf_spot_lowers_loss :
  unit_features (rusty_leaf 0.55) /\ unit_features (rusty_leaf 0.6)
  /\ necroticDensity (rusty_leaf 0.55) < necroticDensity (rusty_leaf 0.6)
  /\ matchedDisease (rusty_leaf 0.55) = Some LeafRust
  /\ matchedDisease (rusty_leaf 0.6) = Some BacterialLeafSpot
  /\ expectedLoss (localAnalysis (rusty_leaf 0.55) Standard) = Some (inject_Z 25)
  /\ expectedLoss (localAnalysis (rusty_leaf 0.6) Standard) = Some (inject_Z 24).
Proof.
  split; [unfold unit_features, unit_interval; simpl; repeat split; lra|].
  split; [unfold unit_features, unit_interval; simpl; repeat split; lra|].
  repeat split; vm_compute; reflexivity.
Qed.

Lemma expectedLoss_monotone_given_match_witness :
  matchedDisease (with_necroticDensity blight_features 0.1) = Some Chlorosis
  /\ matchedDisease blight_features = Some LateBlight
  /\ exists l1 l2,
       expectedLoss (localAnalysis (with_necroticDensity blight_features 0.1) Standard)
       = Some (inject_Z l1)
       /\ expectedLoss (localAnalysis blight_features Standard) = Some (inject_Z l2)
       /\ (l1 <= l2)%Z.
Proof.
  assert (E1 : matchedDisease (with_necroticDensity blight_features 0.1) = Some Chlorosis)
    by (vm_compute; reflexivity).
  assert (E2 : matchedDisease blight_features = Some LateBlight)
    by (vm_compute; reflexivity).
  split; [exact E1|]. split; [exact E2|].
  do 2 eexists. rewrite !expectedLoss_as_given, E1, E2.
  split; [reflexivity|]. split; [reflexivity|].
  apply expectedLoss_monotone_given_match; try reflexivity.
  - simpl. tauto.
  - simpl. tauto.
  - simpl. lra.
  - right. split; vm_compute; discriminate.
Defined.

(* ================================================================== *)
(** * Further properties of the code *)
(* ================================================================== *)

(* ================================================================== *)
(** ** The record store *)
(* ================================================================== *)

Lemma filter_all {A} (f : A -> bool) (l : list A) :
  (forall x, In x l -> f x = true) -> filter f l = l.
Proof.
  induction l as [|a l IH]; intro H; simpl; [reflexivity|].
  rewrite (H a (or_introl eq_refl)). f_equal. apply IH.
  intros x Hx. apply H. right. exact Hx.
Qed.

Lemma map_unchanged {A} (f : A -> A) (l : list A) :
  (forall x, In x l -> f x = x) -> map f l = l.
Proof.
  induction l as [|a l IH]; intro H; simpl; [reflexivity|].
  rewrite (H a (or_introl eq_refl)). f_equal. apply IH.
  intros x Hx. apply H. right. exact Hx.
Qed.

(** X1.  Saving a record whose id is not in the store and then deleting
    that id gives back the records the store had. *)
Theorem save_then_delete (record : CropRecord) (ls : dbService.Storage) :
  (forall x, In x (dbService.getRecords ls) -> id x <> id record) ->
  dbService.getRecords (dbService.deleteRecord (id record) (dbService.saveRecord record ls))
  = dbService.getRecords ls.
Proof.
  intro Hfresh. unfold dbService.deleteRecord, dbService.saveRecord.
  cbn [dbService.getRecords dbService.agroguard_records filter].
  rewrite String.eqb_refl. cbn [negb].
  apply filter_all. intros x Hx.
  apply negb_true_iff, String.eqb_neq, Hfresh, Hx.
Qed.

Lemma save_then_delete_witness :
  dbService.getRecords
    (dbService.deleteRecord (id synced_record)
       (dbService.saveRecord synced_record (localStorage two_pending)))
  = dbService.getRecords (localStorage two_pending).
Proof.
  apply save_then_delete.
  intros x [<- | [<- | []]]; vm_compute; discriminate.
Defined.

(** X2.  An id that no stored record bears: updating it, giving it
    feedback or deleting it leaves the records as they are. *)
Theorem unknown_id_is_ignored (i : string) (u : PartialCropRecord) (fb : string)
    (ls : dbService.Storage) :
  (forall x, In x (dbService.getRecords ls) -> id x <> i) ->
  dbService.getRecords (dbService.updateRecord i u ls) = dbService.getRecords ls
  /\ dbService.getRecords (dbService.updateFeedback i fb ls) = dbService.getRecords ls
  /\ dbService.getRecords (dbService.deleteRecord i ls) = dbService.getRecords ls.
Proof.
  intro Hno.
  assert (Hneq : forall x, In x (dbService.getRecords ls) -> String.eqb (id x) i = false).
  { intros x Hx. apply String.eqb_neq, Hno, Hx. }
  repeat split.
  - cbn [dbService.updateRecord dbService.getRecords dbService.agroguard_records].
    apply map_unchanged. intros x Hx. fold (dbService.getRecords ls) in Hx.
    rewrite (Hneq x Hx). reflexivity.
  - cbn [dbService.updateFeedback dbService.getRecords dbService.agroguard_records].
    apply map_unchanged. intros x Hx. fold (dbService.getRecords ls) in Hx.
    rewrite (Hneq x Hx). reflexivity.
  - cbn [dbService.deleteRecord dbService.getRecords dbService.agroguard_records].
    apply filter_all. intros x Hx. fold (dbService.getRecords ls) in Hx.
    rewrite (Hneq x Hx). reflexivity.
Qed.

Lemma unknown_id_is_ignored_witness :
  dbService.getRecords (dbService.deleteRecord "absent" (localStorage two_pending))
  = dbService.getRecords (localStorage two_pending).
Proof.
  refine (proj2 (proj2 (@unknown_id_is_ignored "absent"%string
                          (failure_update fresh_record) "note"%string
                          (localStorage two_pending) _))).
  intros x [<- | [<- | []]]; vm_compute; discriminate.
Defined.

(** X3.  After [deleteRecord] no record bears the deleted id, every
    record with another id is still there, deleting again changes
    nothing, and two deletions give the same store in either order. *)
Theorem deleteRecord_contract (i j : string) (ls : dbService.Storage) :
  (forall x, In x (dbService.getRecords (dbService.deleteRecord i ls)) <->
             In x (dbService.getRecords ls) /\ id x <> i)
  /\ dbService.deleteRecord i (dbService.deleteRecord i ls) = dbService.deleteRecord i ls
  /\ dbService.deleteRecord i (dbService.deleteRecord j ls)
     = dbService.deleteRecord j (dbService.deleteRecord i ls).
Proof.
  split; [|split].
  - intro x. cbn [dbService.deleteRecord dbService.getRecords dbService.agroguard_records].
    fold (dbService.getRecords ls). rewrite filter_In, negb_true_iff, String.eqb_neq.
    reflexivity.
  - unfold dbService.deleteRecord.
    cbn [dbService.getRecords dbService.agroguard_records dbService.agroguard_settings].
    f_equal. f_equal. apply filter_all. intros x Hx.
    apply filter_In in Hx. tauto.
  - unfold dbService.deleteRecord.
    cbn [dbService.getRecords dbService.agroguard_records dbService.agroguard_settings].
    f_equal. f_equal.
    induction (dbService.getRecords ls) as [|a l IH]; [reflexivity|].
    cbn [filter].
    destruct (String.eqb (id a) i) eqn:Ei; destruct (String.eqb (id a) j) eqn:Ej;
      cbn [negb filter]; rewrite ?Ei, ?Ej; cbn [negb]; rewrite IH; reflexivity.
Qed.

(** X4.  [updateFeedback] is [updateRecord] with a patch that holds the
    feedback only: no other field of any record changes. *)
Theorem updateFeedback_as_update (i fb : string) (ls : dbService.Storage) :
  dbService.updateFeedback i fb ls
  = dbService.updateRecord i
      {| p_id := None; p_timestamp := None; p_cropType := None; p_imageUrl := None;
         p_status := None; p_analysis := None; p_feedback := Some fb;
         p_isPendingSync := None; p_syncAttempts := None; p_lastSyncError := None |}
      ls.
Proof.
  unfold dbService.updateFeedback, dbService.updateRecord.
  match goal with
  | |- {| dbService.agroguard_records := Some (map ?f ?l); dbService.agroguard_settings := _ |}
       = {| dbService.agroguard_records := Some (map ?g _); dbService.agroguard_settings := _ |} =>
      assert (E : map f l = map g l)
  end.
  { apply map_ext. intro r. destruct (String.eqb (id r) i); [|reflexivity].
    destruct r. reflexivity. }
  rewrite E. reflexivity.
Qed.

(** X5.  In a store with unique ids, [updateRecord] with a patch that
    does not set the id replaces the record bearing the id by its merge
    with the patch, at the same position, and leaves every other position
    and the sequence of ids as they were. *)
Theorem updateRecord_lookup (i : string) (u : PartialCropRecord) (ls : dbService.Storage)
    (k : nat) (x : CropRecord) :
  NoDup (map id (dbService.getRecords ls)) ->
  p_id u = None ->
  nth_error (dbService.getRecords ls) k = Some x ->
  id x = i ->
  let ls' := dbService.updateRecord i u ls in
  nth_error (dbService.getRecords ls') k = Some (dbService.spread x u)
  /\ (forall k' y, k' <> k -> nth_error (dbService.getRecords ls) k' = Some y ->
        nth_error (dbService.getRecords ls') k' = Some y)
  /\ map id (dbService.getRecords ls') = map id (dbService.getRecords ls).
Proof.
  intros Hnd Hid Hk Hx ls'. subst ls'. split; [|split].
  - rewrite (updateRecord_nth i u ls k Hk). subst i. rewrite String.eqb_refl. reflexivity.
  - intros k' y Hne Hy. apply updateRecord_other; [exact Hy|].
    subst i. eapply unique_ids_distinct; eauto.
    + eapply nth_error_In. exact Hy.
    + intro E. subst y.
      apply Hne. apply (proj1 (NoDup_nth_error (map id (dbService.getRecords ls))) Hnd).
      * rewrite length_map. apply nth_error_Some. congruence.
      * rewrite !nth_error_map, Hy, Hk. reflexivity.
  - rewrite getRecords_updateRecord, map_map. apply map_ext.
    intro r. destruct (String.eqb (id r) i); [|reflexivity].
    unfold dbService.spread. cbn [id]. rewrite Hid. reflexivity.
Qed.

Lemma updateRecord_lookup_witness :
  nth_error (dbService.getRecords
     (dbService.updateRecord (id fresh_record) (failure_update fresh_record)
        (localStorage two_pending))) 1
  = Some (dbService.spread fresh_record (failure_update fresh_record)).
Proof.
  refine (proj1 (@updateRecord_lookup (id fresh_record) (failure_update fresh_record)
                   (localStorage two_pending) 1%nat fresh_record _ eq_refl eq_refl eq_refl)).
  repeat constructor; simpl; intuition discriminate.
Defined.


(* ================================================================== *)
(** ** Ranges of the local analysis *)
(* ================================================================== *)

(** X7.  On a feature vector with every component in [0,1], the
    normalised score of every profile of the knowledge base lies in
    [0,1]. *)
Theorem profile_scores_unit (v : LocalVisualFeatures) (p : DiseaseProfile) :
  unit_features v -> In p DISEASE_PROFILES ->
  0 <= finalScore v p /\ finalScore v p <= 1.
Proof.
  intros ([G0 G1] & [V0 V1] & [N0 N1] & [R0 R1] & [E0 E1] & [Z0 Z1]) Hp.
  destruct Hp as [<- | [<- | [<- | [<- | [<- | []]]]]].
  - rewrite finalScore_LeafRust. split; lra.
  - rewrite finalScore_LateBlight. split; lra.
  - rewrite finalScore_PowderyMildew. split; lra.
  - rewrite finalScore_Chlorosis. split; lra.
  - rewrite finalScore_BacterialLeafSpot. split; lra.
Qed.

Lemma profile_scores_unit_witness :
  0 <= finalScore blight_features Chlorosis /\ finalScore blight_features Chlorosis <= 1.
Proof.
  apply profile_scores_unit.
  - unfold unit_features, unit_interval; simpl; repeat split; lra.
  - simpl. tauto.
Defined.

(** On a vector in [0,1] the best match is a profile of the knowledge
    base, with its score, which lies in [0,1]. *)
Lemma bestMatch_unit (v : LocalVisualFeatures) :
  unit_features v ->
  exists p, In p DISEASE_PROFILES /\ bestMatch v = (Some p, finalScore v p)
            /\ 0 <= finalScore v p /\ finalScore v p <= 1.
Proof.
  intro Hu.
  pose proof (finalScore_LeafRust v) as R. pose proof (finalScore_LateBlight v) as L.
  pose proof (finalScore_PowderyMildew v) as P. pose proof (finalScore_Chlorosis v) as C.
  pose proof (finalScore_BacterialLeafSpot v) as B.
  destruct (bestMatch_cases (LeafRust_score_nonneg Hu))
    as [(E & _) | [(E & _) | [(E & _) | [(E & _) | (E & _)]]]];
    destruct Hu as ([G0 G1] & [V0 V1] & [N0 N1] & [R0 R1] & [E0 E1] & [Z0 Z1]);
    eexists; (split; [|split; [exact E|split; lra]]); simpl; tauto.
Qed.

Lemma scores_of_localAnalysis (v : LocalVisualFeatures) (s : StressSensitivity) :
  similarityScore (localAnalysis v s) = Some (snd (bestMatch v))
  /\ confidenceScore (localAnalysis v s)
     = Some (Js.Math_min 0.92 (0.5 + snd (bestMatch v) * 0.4)).
Proof.
  unfold localAnalysis. destruct (bestMatch v). split; reflexivity.
Qed.

(** X8.  On a feature vector in [0,1] the reported similarityScore is the
    score of a profile and lies in [0,1]; the confidenceScore is
    0.5 + 0.4 * similarityScore, between 0.5 and 0.9: the cap of 0.92 is
    never reached. *)
Theorem confidence_range (v : LocalVisualFeatures) (s : StressSensitivity) :
  unit_features v ->
  exists m c,
    similarityScore (localAnalysis v s) = Some m
    /\ confidenceScore (localAnalysis v s) = Some c
    /\ 0 <= m /\ m <= 1
    /\ c == 0.5 + m * 0.4
    /\ 0.5 <= c /\ c <= 0.9.
Proof.
  intro Hu.
  destruct (scores_of_localAnalysis v s) as [Es Ec].
  destruct (bestMatch_unit Hu) as (p & Hp & Eb & P0 & P1).
  rewrite Eb in Es, Ec. cbn [snd] in Es, Ec.
  do 2 eexists. split; [exact Es|]. split; [exact Ec|].
  assert (Hmin : Js.Math_min 0.92 (0.5 + finalScore v p * 0.4)
                 == 0.5 + finalScore v p * 0.4).
  { apply Q.min_r. lra. }
  split; [exact P0|]. split; [exact P1|]. split; [exact Hmin|].
  rewrite Hmin. split; lra.
Qed.

Lemma confidence_range_witness :
  exists m c,
    similarityScore (localAnalysis default_features Standard) = Some m
    /\ confidenceScore (localAnalysis default_features Standard) = Some c
    /\ 0 <= m /\ m <= 1 /\ c == 0.5 + m * 0.4 /\ 0.5 <= c /\ c <= 0.9.
Proof.
  apply confidence_range.
  unfold unit_features, unit_interval; simpl; repeat split; lra.
Defined.

Lemma stressHeuristic_range (v : LocalVisualFeatures) (s : StressSensitivity) :
  unit_features v ->
  0 <= stressHeuristic v s /\ stressHeuristic v s <= sMod s.
Proof.
  intros ([G0 G1] & _ & [N0 N1] & _ & _ & [Z0 Z1]).
  unfold stressHeuristic. destruct s; unfold sMod; split; lra.
Qed.

Lemma Math_round_inject (z : Z) : Js.Math_round (inject_Z z) = z.
Proof.
  unfold Js.Math_round.
  pose proof (Qfloor_le (inject_Z z + (1 # 2))) as Hle.
  pose proof (Qlt_floor (inject_Z z + (1 # 2))) as Hlt.
  assert (H1 : inject_Z (Qfloor (inject_Z z + (1 # 2))) < inject_Z (z + 1)).
  { rewrite inject_Z_plus. change (inject_Z 1) with 1. lra. }
  assert (H2 : inject_Z z < inject_Z (Qfloor (inject_Z z + (1 # 2)) + 1)).
  { rewrite inject_Z_plus in *. change (inject_Z 1) with 1 in *. lra. }
  rewrite <- Zlt_Qlt in H1, H2. lia.
Qed.

Lemma Math_round_bounds (x : Q) (lo hi : Z) :
  inject_Z lo <= x -> x <= inject_Z hi ->
  (lo <= Js.Math_round x <= hi)%Z.
Proof.
  intros Hlo Hhi. split.
  - rewrite <- (Math_round_inject lo). apply Math_round_mono. exact Hlo.
  - rewrite <- (Math_round_inject hi). apply Math_round_mono. exact Hhi.
Qed.

Lemma lossModifier_range (v : LocalVisualFeatures) :
  unit_features v -> (6 # 10) <= lossModifier v /\ lossModifier v <= 2.
Proof.
  intro Hu. unfold lossModifier.
  destruct (matchedDisease_cases Hu)
    as [(M & _) | [(M & _) | [(M & _) | [(M & _) | [(M & _) | (M & _)]]]]];
    rewrite M; cbn [baseLossModifier LeafRust LateBlight PowderyMildew Chlorosis
                    BacterialLeafSpot]; split; lra.
Qed.

Lemma scaled_product_bound (x k a b : Q) :
  0 <= x -> x <= a -> 0 <= k -> k <= b ->
  0 <= x * 35 * k /\ x * 35 * k <= a * 35 * b.
Proof.
  intros X0 X1 K0 K1.
  assert (H1 : 0 <= x * k) by (apply Qmult_le_0_compat; assumption).
  assert (H2 : 0 <= (a - x) * k) by (apply Qmult_le_0_compat; lra).
  assert (H3 : 0 <= a * (b - k)) by (apply Qmult_le_0_compat; lra).
  split; lra.
Qed.

Lemma metrics_of_localAnalysis (v : LocalVisualFeatures) (s : StressSensitivity) :
  stressProbability (localAnalysis v s)
    = Some (inject_Z (Js.Math_round (stressHeuristic v s * 100)))
  /\ exists m, detailedMetrics (localAnalysis v s) = Some m
       /\ leafCoverage m = Some (inject_Z (Js.Math_round (necroticDensity v * 160)))
       /\ climateRiskFactor m = Some 0.5.
Proof.
  unfold localAnalysis. destruct (bestMatch v). split; [reflexivity|].
  eexists. repeat split.
Qed.

(** X9.  On a feature vector in [0,1]: expectedLoss is an integer between
    0 and 98 (at most 70 under Low and Standard sensitivity),
    stressProbability an integer between 0 and 140 (at most 100 under Low
    and Standard), and leafCoverage an integer between 0 and 160. *)
Theorem local_analysis_bounds (v : LocalVisualFeatures) (s : StressSensitivity) :
  unit_features v ->
  exists loss prob cover m,
    expectedLoss (localAnalysis v s) = Some (inject_Z loss)
    /\ stressProbability (localAnalysis v s) = Some (inject_Z prob)
    /\ detailedMetrics (localAnalysis v s) = Some m
    /\ leafCoverage m = Some (inject_Z cover)
    /\ (0 <= loss <= 98)%Z /\ (0 <= prob <= 140)%Z /\ (0 <= cover <= 160)%Z
    /\ (sMod s == 1 -> (loss <= 70)%Z /\ (prob <= 100)%Z).
Proof.
  intro Hu.
  destruct (metrics_of_localAnalysis v s) as (Ep & m & Em & Ec & _).
  destruct (stressHeuristic_range s Hu) as [S0 S1].
  destruct (lossModifier_range Hu) as [L0 L1].
  assert (Hs : sMod s <= 1.4) by (destruct s; unfold sMod; lra).
  destruct Hu as (_ & _ & [N0 N1] & _).
  exists (Js.Math_round (stressHeuristic v s * 35 * lossModifier v)),
         (Js.Math_round (stressHeuristic v s * 100)),
         (Js.Math_round (necroticDensity v * 160)), m.
  split; [apply expectedLoss_localAnalysis|].
  split; [exact Ep|]. split; [exact Em|]. split; [exact Ec|].
  set (x := stressHeuristic v s) in *. set (k := lossModifier v) in *.
  destruct (@scaled_product_bound x k 1.4 2) as [P0 P1]; try lra.
  split; [apply Math_round_bounds; unfold inject_Z; lra|].
  split; [apply Math_round_bounds; unfold inject_Z; lra|].
  split; [apply Math_round_bounds; unfold inject_Z; lra|].
  intro H1.
  destruct (@scaled_product_bound x k 1 2) as [_ P2]; try lra.
  split; apply Math_round_bounds with (lo := 0%Z); unfold inject_Z; lra.
Qed.

Lemma local_analysis_bounds_witness :
  exists loss prob cover m,
    expectedLoss (localAnalysis blight_features Aggressive) = Some (inject_Z loss)
    /\ stressProbability (localAnalysis blight_features Aggressive) = Some (inject_Z prob)
    /\ detailedMetrics (localAnalysis blight_features Aggressive) = Some m
    /\ leafCoverage m = Some (inject_Z cover)
    /\ (0 <= loss <= 98)%Z /\ (0 <= prob <= 140)%Z /\ (0 <= cover <= 160)%Z
    /\ (sMod Aggressive == 1 -> (loss <= 70)%Z /\ (prob <= 100)%Z).
Proof.
  apply local_analysis_bounds.
  unfold unit_features, unit_interval; simpl; repeat split; lra.
Defined.

(* ================================================================== *)
(** ** Coherence of the local analysis *)
(* ================================================================== *)

Lemma verdict_of_localAnalysis (v : LocalVisualFeatures) (s : StressSensitivity) :
  let x := stressHeuristic v s in
  riskLevel (localAnalysis v s)
    = Some (if x >? 0.5 then RiskHigh else if x >? 0.2 then RiskMedium else RiskLow)
  /\ treatmentUrgency (localAnalysis v s)
     = Some (if x >? 0.4 then Immediate else if x >? 0.15 then Within48h else Monitoring)
  /\ symptomlessStressDetected (localAnalysis v s) = Some (isSymptomless v s)
  /\ exists m, detailedMetrics (localAnalysis v s) = Some m
       /\ leafCoverage m = Some (inject_Z (Js.Math_round (necroticDensity v * 160)))
       /\ spreadVelocity m
          = Some (if edgeDensity v >? 0.35 then VAggressive
                  else if edgeDensity v >? 0.15 then Moderate else Slow).
Proof.
  unfold localAnalysis. destruct (bestMatch v). cbv zeta.
  repeat split. eexists. repeat split.
Qed.

(** X10.  The verdicts of one local analysis agree with each other, on
    any feature vector: riskLevel High comes with treatmentUrgency
    Immediate, urgency Monitoring with riskLevel Low, and riskLevel Medium
    never with Monitoring; when symptomless stress is reported, riskLevel
    is not Low, urgency is not Monitoring, spreadVelocity is not
    Aggressive and leafCoverage is at most 16. *)
Theorem local_verdicts_agree (v : LocalVisualFeatures) (s : StressSensitivity) :
  let a := localAnalysis v s in
  (riskLevel a = Some RiskHigh -> treatmentUrgency a = Some Immediate)
  /\ (treatmentUrgency a = Some Monitoring -> riskLevel a = Some RiskLow)
  /\ (riskLevel a = Some RiskMedium -> treatmentUrgency a <> Some Monitoring)
  /\ (symptomlessStressDetected a = Some true ->
      riskLevel a <> Some RiskLow
      /\ treatmentUrgency a <> Some Monitoring
      /\ exists m cover,
           detailedMetrics a = Some m
           /\ spreadVelocity m <> Some VAggressive
           /\ leafCoverage m = Some (inject_Z cover) /\ (cover <= 16)%Z).
Proof.
  intro a. subst a.
  destruct (verdict_of_localAnalysis v s) as (Er & Eu & Es & m & Em & Ec & Ev).
  cbv zeta in Er, Eu. rewrite Er, Eu, Es. clear Er Eu Es.
  set (x := stressHeuristic v s).
  destruct (x >? 0.5) eqn:H5; [apply gt_true in H5 | apply gt_false in H5];
  destruct (x >? 0.2) eqn:H2; [apply gt_true in H2 | apply gt_false in H2
                              | apply gt_true in H2 | apply gt_false in H2];
  destruct (x >? 0.4) eqn:H4; [apply gt_true in H4 | apply gt_false in H4
                              | apply gt_true in H4 | apply gt_false in H4
                              | apply gt_true in H4 | apply gt_false in H4
                              | apply gt_true in H4 | apply gt_false in H4];
  destruct (x >? 0.15) eqn:H1;
    try (apply gt_true in H1); try (apply gt_false in H1);
    try (exfalso; lra);
    (split; [intro; congruence || reflexivity|]);
    (split; [intro; congruence || reflexivity|]);
    (split; [intro; congruence|]);
    intro Hs; injection Hs as Hs; unfold isSymptomless in Hs;
    apply andb_prop in Hs; destruct Hs as [Hs He];
    apply andb_prop in Hs; destruct Hs as [Hx Hn];
    apply gt_true in Hx; apply gt_true in He; apply gt_true in Hn;
    fold x in Hx; try (exfalso; lra);
    (split; [congruence|]); (split; [congruence|]);
    exists m, (Js.Math_round (necroticDensity v * 160));
    (split; [exact Em|]);
    (split; [rewrite Ev;
             assert (Hf : (edgeDensity v >? 0.35) = false) by (apply gt_false; lra);
             rewrite Hf; destruct (edgeDensity v >? 0.15); congruence|]);
    (split; [exact Ec|]);
    rewrite <- (Math_round_inject 16); apply Math_round_mono;
    unfold inject_Z; lra.
Qed.



(** X11.  Whatever the image, the browser and the sensitivity, an analysis
    produced by [runLocalInference] has every field the schema requires
    (detailedMetrics included, with its three fields), carries exactly
    three recommendations, and names as disease either a profile of the
    knowledge base, "Physiological Stress" (exactly when symptomless stress
    is reported and no profile is confirmed) or "Unknown Pathogen". *)
Theorem local_analysis_is_complete (w : World) (imageData : option string)
    (crop : string) (s : StressSensitivity) (a : YieldAnalysis) :
  runLocalInference w imageData crop s = Some a ->
  ANALYSIS_SCHEMA a = true
  /\ (exists m, detailedMetrics a = Some m)
  /\ (exists r1 r2 r3, recommendations a = Some [r1; r2; r3])
  /\ ((exists p, In p DISEASE_PROFILES /\ diseaseDetected a = Some (name p))
      \/ (diseaseDetected a = Some "Physiological Stress"%string
          /\ symptomlessStressDetected a = Some true)
      \/ (diseaseDetected a = Some "Unknown Pathogen"%string
          /\ symptomlessStressDetected a = Some false)).
Proof.
  unfold runLocalInference. intro H.
  assert (Hv : exists v, a = localAnalysis v s).
  { match type of H with
    | option_map _ ?visual = _ => destruct visual as [v|]
    end; cbn [option_map] in H; [|discriminate].
    exists v. congruence. }
  destruct Hv as [v ->]. clear H.
  pose proof (@matchedDisease_in v) as Hin.
  unfold localAnalysis.
  destruct (bestMatch v) as [b m]. destruct (matchedDisease v) as [p|].
  - specialize (Hin p eq_refl).
    split; [reflexivity|]. split; [eexists; reflexivity|].
    split.
    + cbn [recommendations].
      destruct Hin as [<- | [<- | [<- | [<- | [<- | []]]]]];
        do 3 eexists; reflexivity.
    + left. exists p. split; [exact Hin | reflexivity].
  - split; [reflexivity|]. split; [eexists; reflexivity|].
    cbn [recommendations diseaseDetected symptomlessStressDetected].
    destruct (isSymptomless v s).
    + split; [do 3 eexists; reflexivity|]. right. left. split; reflexivity.
    + split; [do 3 eexists; reflexivity|]. right. right. split; reflexivity.
Qed.

Lemma local_analysis_is_complete_witness :
  ANALYSIS_SCHEMA (localAnalysis default_features Standard) = true.
Proof.
  refine (proj1 (@local_analysis_is_complete failing_world None "Potato"%string
                   Standard _ eq_refl)).
Defined.

(* ================================================================== *)
(** ** The sensitivity setting *)
(* ================================================================== *)

(** X12.  The sensitivity only scales the stress heuristic: Low and
    Standard give the same analysis, and on a feature vector in [0,1] a
    sensitivity with a larger multiplier (Standard, then High, then
    Aggressive) never gives a smaller expectedLoss or stressProbability. *)
Theorem sensitivity_monotone (v : LocalVisualFeatures) (s1 s2 : StressSensitivity) :
  unit_features v ->
  sMod s1 <= sMod s2 ->
  localAnalysis v Low = localAnalysis v Standard
  /\ exists l1 l2 p1 p2,
       expectedLoss (localAnalysis v s1) = Some l1
       /\ expectedLoss (localAnalysis v s2) = Some l2
       /\ stressProbability (localAnalysis v s1) = Some p1
       /\ stressProbability (localAnalysis v s2) = Some p2
       /\ l1 <= l2 /\ p1 <= p2.
Proof.
  intros Hu Hs. split; [reflexivity|].
  destruct (metrics_of_localAnalysis v s1) as (Ep1 & _).
  destruct (metrics_of_localAnalysis v s2) as (Ep2 & _).
  do 4 eexists.
  split; [apply expectedLoss_localAnalysis|].
  split; [apply expectedLoss_localAnalysis|].
  split; [exact Ep1|]. split; [exact Ep2|].
  destruct (lossModifier_range Hu) as [L0 L1].
  assert (Hx : 0 <= stressHeuristic v s1
               /\ stressHeuristic v s1 <= stressHeuristic v s2).
  { destruct Hu as ([G0 G1] & _ & [N0 N1] & _ & _ & [Z0 Z1]).
    unfold stressHeuristic.
    set (b := (1 - greenness v) * 0.4 + necroticDensity v * 0.4
              + (1 - zonalIntegrity v) * 0.2).
    assert (B0 : 0 <= b) by (subst b; lra).
    assert (M0 : 0 <= sMod s1) by (destruct s1; unfold sMod; lra).
    split; [apply Qmult_le_0_compat; assumption|].
    assert (0 <= b * (sMod s2 - sMod s1)) by (apply Qmult_le_0_compat; lra).
    lra. }
  destruct Hx as [X0 X1].
  set (x1 := stressHeuristic v s1) in *. set (x2 := stressHeuristic v s2) in *.
  set (k := lossModifier v) in *.
  split; rewrite <- Zle_Qle; apply Math_round_mono; [|lra].
  assert (0 <= (x2 - x1) * k) by (apply Qmult_le_0_compat; lra).
  lra.
Qed.

Lemma sensitivity_monotone_witness :
  exists l1 l2 p1 p2,
    expectedLoss (localAnalysis blight_features Standard) = Some l1
    /\ expectedLoss (localAnalysis blight_features Aggressive) = Some l2
    /\ stressProbability (localAnalysis blight_features Standard) = Some p1
    /\ stressProbability (localAnalysis blight_features Aggressive) = Some p2
    /\ l1 <= l2 /\ p1 <= p2.
Proof.
  refine (proj2 (@sensitivity_monotone blight_features Standard Aggressive _ _)).
  - unfold unit_features, unit_interval; simpl; repeat split; lra.
  - unfold sMod. lra.
Defined.

(* ================================================================== *)
(** ** When the orchestrator settles *)
(* ================================================================== *)

(** The orchestrator yields [null] only from a remote reply that parses
    to [null]. *)
Lemma null_only_from_remote (w : World) (t : nat) (imageData : option string)
    (crop : string) (s : StressSensitivity) :
  analyzeCropHealth w t imageData crop s = Some JsNull ->
  exists text, JSON_parse w text = Parsed JsNull.
Proof.
  unfold analyzeCropHealth.
  assert (Hnull : option_map JsObject (runLocalInference w imageData crop s)
                  <> Some JsNull).
  { destruct (runLocalInference w imageData crop s); discriminate. }
  destruct (negb (onLine w t) || negb (Js.truthy_str (API_KEY w)));
    [intro; contradiction|].
  destruct (generateContent w t imageData crop s) as [|text|];
    [intro; contradiction| |discriminate].
  destruct (JSON_parse w (text_or_empty_object text)) as [|v] eqn:Ep;
    [intro; contradiction|].
  intro E. inversion E; subst. eexists. exact Ep.
Qed.

(** X13.  Without an image (none, or the empty string) the orchestrator
    fails to settle only when it is online with a credential and the
    remote call never settles; and whatever the image, it yields [null]
    only when the remote reply parses to [null], never from the local
    engine. *)
Theorem orchestrator_settles (w : World) (t : nat) (imageData : option string)
    (crop : string) (s : StressSensitivity) :
  let remote_asked := onLine w t && Js.truthy_str (API_KEY w) in
  (Js.truthy_str imageData = false ->
   (analyzeCropHealth w t imageData crop s = None
    <-> remote_asked = true /\ generateContent w t imageData crop s = Silent))
  /\ (analyzeCropHealth w t imageData crop s = Some JsNull
      <-> remote_asked = true
          /\ exists text, generateContent w t imageData crop s = Responds text
                          /\ JSON_parse w (text_or_empty_object text) = Parsed JsNull).
Proof.
  intro remote_asked. subst remote_asked. unfold analyzeCropHealth.
  set (local := option_map JsObject (runLocalInference w imageData crop s)).
  assert (Hnull : local <> Some JsNull).
  { subst local. destruct (runLocalInference w imageData crop s); discriminate. }
  split.
  - intro Himg.
    assert (Hsome : local <> None).
    { subst local. unfold runLocalInference.
      destruct imageData as [data|]; [rewrite Himg|]; discriminate. }
    destruct (onLine w t), (Js.truthy_str (API_KEY w)); cbn [negb orb andb];
      try (split; [intro; contradiction | intros [? _]; discriminate]).
    destruct (generateContent w t imageData crop s) as [|text|].
    + split; [intro; contradiction | intros [_ ?]; discriminate].
    + destruct (JSON_parse w (text_or_empty_object text)).
      * split; [intro; contradiction | intros [_ ?]; discriminate].
      * split; [discriminate | intros [_ ?]; discriminate].
    + split; [intros _; split; reflexivity | reflexivity].
  - destruct (onLine w t), (Js.truthy_str (API_KEY w)); cbn [negb orb andb];
      try (split; [intro; contradiction | intros [? _]; discriminate]).
    destruct (generateContent w t imageData crop s) as [|text|].
    + split; [intro; contradiction | intros [_ [? [? _]]]; discriminate].
    + destruct (JSON_parse w (text_or_empty_object text)) as [|v] eqn:Ep.
      * split; [intro; contradiction|].
        intros [_ [text' [E P]]]. inversion E; subst. congruence.
      * split.
        -- intro E. inversion E; subst. split; [reflexivity|].
           exists text. split; [reflexivity | exact Ep].
        -- intros [_ [text' [E P]]]. inversion E; subst. congruence.
    + split; [discriminate | intros [_ [? [? _]]]; discriminate].
Qed.

Lemma orchestrator_settles_witness :
  analyzeCropHealth failing_world 0 None "Potato" Standard = None
  <-> onLine failing_world 0 && Js.truthy_str (API_KEY failing_world) = true
      /\ generateContent failing_world 0 None "Potato"%string Standard = Silent.
Proof.
  refine (proj1 (@orchestrator_settles failing_world 0%nat None "Potato"%string Standard)
                eq_refl).
Defined.

(* ================================================================== *)
(** ** Green and red pixels *)
(* ================================================================== *)

Lemma channel_nonneg (b : byte) : 0 <= channel b.
Proof.
  unfold channel. change 0 with (inject_Z 0). rewrite <- Zle_Qle. lia.
Qed.

(** No pixel is classified both green and red. *)
Lemma green_excludes_red (pr pg pb : byte) :
  green_pixel pr pg pb = true ->
  (channel pr >? channel pg * 1.3) && (channel pr >? channel pb * 1.2) = false.
Proof.
  unfold green_pixel. intro Hg.
  apply andb_prop in Hg. destruct Hg as [Hg _]. apply gt_true in Hg.
  destruct (channel pr >? channel pg * 1.3) eqn:Hr; [|reflexivity].
  apply gt_true in Hr. pose proof (channel_nonneg pr). pose proof (channel_nonneg pg).
  exfalso. lra.
Qed.

(** The per-pixel loop counts every green pixel once, in the centre or in
    the periphery, and no pixel as both green and red. *)
Lemma pixel_loop_green_red (pixels : list byte) :
  forall (pixelIdx : Z) (c : Counters),
    let c' := pixel_loop pixels pixelIdx c in
    (green c' - green c
     = (centerGreen c' - centerGreen c) + (edgeGreen c' - edgeGreen c))%Z
    /\ (4 * ((green c' - green c) + (red c' - red c))
        <= Z.of_nat (List.length pixels))%Z.
Proof.
  induction pixels as [|a|a b|a b c0|pr pg pb pa rest IH] using quad_ind;
    intros pixelIdx c; cbv zeta;
    try (cbn [pixel_loop List.length]; split; lia).
  change (pixel_loop (pr :: pg :: pb :: pa :: rest) pixelIdx c)
    with (pixel_loop rest (pixelIdx + 1)%Z (pixel_body pr pg pb pixelIdx c)).
  specialize (IH (pixelIdx + 1)%Z (pixel_body pr pg pb pixelIdx c)).
  cbv zeta in IH. destruct IH as [Hsum Hex].
  assert (Hlen : Z.of_nat (List.length (pr :: pg :: pb :: pa :: rest))
                 = (4 + Z.of_nat (List.length rest))%Z).
  { cbn [List.length]. lia. }
  rewrite Hlen. clear Hlen.
  pose proof (@green_excludes_red pr pg pb) as Hgr.
  unfold pixel_body in *. cbn [green red centerGreen edgeGreen] in *.
  rewrite isCenter_central in *.
  fold (green_pixel pr pg pb) in *.
  destruct (green_pixel pr pg pb).
  - rewrite (Hgr eq_refl) in *.
    destruct (central pixelIdx); cbn [andb negb] in *; split; lia.
  - destruct ((channel pr >? channel pg * 1.3) && (channel pr >? channel pb * 1.2));
      cbn [andb negb] in *; split; lia.
Qed.

(** X14.  On a canvas buffer, greenness is the number of green pixels of
    the centre plus that of the periphery, over the 16384 pixels; and
    since no pixel is both green and red, greenness and redness together
    do not exceed 1. *)
Theorem green_and_red_shares (pixels : list byte) :
  canvas_buffer pixels ->
  greenness (onload pixels)
  == inject_Z (centerGreenCount pixels + peripheryGreenCount pixels) / inject_Z pixelCount
  /\ greenness (onload pixels) + redness (onload pixels) <= 1.
Proof.
  intro Hbuf. unfold canvas_buffer in Hbuf.
  destruct (pixel_loop_counts pixels 0%Z zero)
    as (Hc & He & Hg1 & _ & _ & _ & Hr1 & _).
  destruct (pixel_loop_green_red pixels 0%Z zero) as [Hsum Hex].
  cbv zeta in *. cbn [zero green red centerGreen edgeGreen] in *.
  rewrite Z.add_0_l in Hc, He.
  fold (centerGreenCount pixels) in Hc. fold (peripheryGreenCount pixels) in He.
  unfold onload. cbn [greenness redness].
  set (g := green (pixel_loop pixels 0%Z zero)) in *.
  set (r := red (pixel_loop pixels 0%Z zero)) in *.
  assert (Eg : g = (centerGreenCount pixels + peripheryGreenCount pixels)%Z) by lia.
  split.
  - rewrite Eg. reflexivity.
  - assert (Hgr : (g + r <= pixelCount)%Z) by lia.
    change pixelCount with 16384%Z in *.
    assert (Hq : inject_Z g + inject_Z r <= 16384).
    { rewrite <- inject_Z_plus. change 16384 with (inject_Z 16384).
      rewrite <- Zle_Qle. exact Hgr. }
    unfold Qdiv. change (/ inject_Z 16384) with (1 # 16384). lra.
Qed.

Lemma green_and_red_shares_witness :
  greenness (onload centred_leaf) + redness (onload centred_leaf) <= 1.
Proof.
  exact (proj2 (green_and_red_shares centred_leaf_canvas)).
Defined.

(* ================================================================== *)
(** ** More on the sync pass *)
(* ================================================================== *)

Lemma now_report (b : bool) (p : SyncProgress) (l : Loop) : now (report b p l) = now l.
Proof. destruct b; reflexivity. Qed.

Lemma guard_open_iff (w : World) (t : nat) (m : Machine) :
  isSyncActive m || negb (onLine w t) || negb (Js.truthy_str (API_KEY w)) = false
  <-> guard_open w t m.
Proof.
  unfold guard_open.
  destruct (isSyncActive m), (onLine w t), (Js.truthy_str (API_KEY w));
    simpl; split; intros; try discriminate; intuition discriminate.
Qed.

Section LoopCalls.

Variable w : World.
Variable settings : UserSettings.
Variable onProgress : bool.
Variable length : Z.

(** The records handed over are, in order, the records below the cap
    among those visited; all of them when the loop ends. *)
Lemma sync_loop_calls (pending : list CropRecord) :
  forall (i : Z) (l l' : Loop) (fin : bool),
    sync_loop w settings onProgress length i pending l = (l', fin) ->
    exists rest,
      (handed l ++ filter (fun r => (attempts r <? MAX_SYNC_ATTEMPTS)%Z) pending
       = handed l' ++ rest)%list
      /\ (fin = true -> rest = []).
Proof.
  induction pending as [|record rest IH]; intros i l l' fin Hrun.
  - simpl in Hrun. inversion Hrun; subst. exists []. split; [reflexivity | reflexivity].
  - cbn [sync_loop] in Hrun. cbn [filter].
    rewrite Z.geb_leb in Hrun.
    destruct (Z.leb_spec MAX_SYNC_ATTEMPTS (attempts record)) as [Hcap | Hcap].
    + assert (E : (attempts record <? MAX_SYNC_ATTEMPTS)%Z = false) by (apply Z.ltb_ge; lia).
      rewrite E. eapply IH. exact Hrun.
    + assert (E : (attempts record <? MAX_SYNC_ATTEMPTS)%Z = true) by (apply Z.ltb_lt; lia).
      rewrite E.
      destruct (analyzeCropHealth w _ _ _ _) as [[|cloudResult]|].
      * destruct (IH _ _ _ _ Hrun) as [tail [Ht Hf]]. cbn [handed] in Ht.
        rewrite handed_report, <- app_assoc in Ht. exists tail. split; assumption.
      * destruct (IH _ _ _ _ Hrun) as [tail [Ht Hf]]. cbn [handed] in Ht.
        rewrite handed_report, <- app_assoc in Ht. exists tail. split; assumption.
      * inversion Hrun; subst. cbn [handed]. rewrite handed_report.
        exists (filter (fun r => (attempts r <? MAX_SYNC_ATTEMPTS)%Z) rest).
        split; [rewrite <- app_assoc; reflexivity | discriminate].
Qed.

(** The loop keeps, position by position, the fields it has no business
    with. *)
Lemma sync_loop_identity (pending : list CropRecord) :
  forall (i : Z) (l l' : Loop) (fin : bool),
    sync_loop w settings onProgress length i pending l = (l', fin) ->
    map identity_of (dbService.getRecords (store l'))
    = map identity_of (dbService.getRecords (store l)).
Proof.
  assert (Hupd : forall i u ls,
             p_id u = None -> p_timestamp u = None -> p_cropType u = None ->
             p_imageUrl u = None -> p_feedback u = None -> p_lastSyncError u = None ->
             map identity_of (dbService.getRecords (dbService.updateRecord i u ls))
             = map identity_of (dbService.getRecords ls)).
  { intros i u ls H1 H2 H3 H4 H5 H6. rewrite getRecords_updateRecord, map_map.
    apply map_ext. intro r. destruct (String.eqb (id r) i); [|reflexivity].
    unfold identity_of, dbService.spread. cbn. rewrite H1, H2, H3, H4, H5, H6.
    reflexivity. }
  induction pending as [|record rest IH]; intros i l l' fin Hrun.
  - simpl in Hrun. inversion Hrun; subst. reflexivity.
  - cbn [sync_loop] in Hrun.
    destruct (attempts record >=? MAX_SYNC_ATTEMPTS)%Z.
    + eapply IH. exact Hrun.
    + destruct (analyzeCropHealth w _ _ _ _) as [[|cloudResult]|].
      * rewrite (IH _ _ _ _ Hrun). cbn [store].
        rewrite Hupd, store_report; reflexivity.
      * rewrite (IH _ _ _ _ Hrun). cbn [store].
        rewrite Hupd, store_report; reflexivity.
      * inversion Hrun; subst. cbn [store]. rewrite store_report. reflexivity.
Qed.

End LoopCalls.

(** The records handed over are a leading part of the eligible ones. *)
Lemma pass_calls_prefix (w : World) (onProgress : bool) (t : nat) (m : Machine) :
  exists rest,
    eligible (localStorage m) = (calls (syncOfflineRecords w onProgress t m) ++ rest)%list.
Proof.
  unfold eligible.
  destruct (pass_cases w onProgress t m) as [[_ Hc] | [l' [fin [Hrun [_ Hc]]]]];
    rewrite Hc; [eexists; reflexivity|].
  destruct (sync_loop_calls _ _ _ _ _ _ _ Hrun) as [rest [Hr _]].
  exists rest. exact Hr.
Qed.

Lemma pass_same_length (w : World) (onProgress : bool) (t : nat) (m : Machine) :
  List.length (records_of (final (syncOfflineRecords w onProgress t m)))
  = List.length (records_of m).
Proof.
  unfold records_of.
  destruct (pass_cases w onProgress t m) as [[Hs _] | [l' [fin [Hrun [Hs _]]]]];
    rewrite Hs; [reflexivity|].
  rewrite <- (length_map identity_of (dbService.getRecords (store l'))).
  rewrite (sync_loop_identity _ _ _ _ _ _ _ Hrun). apply length_map.
Qed.

(** Position by position, the store after an invocation is reconciled
    with the store before. *)
Lemma pass_reconciles (w : World) (onProgress : bool) (t : nat) (m : Machine)
    (k : nat) (r r' : CropRecord) :
  nth_error (records_of m) k = Some r ->
  nth_error (records_of (final (syncOfflineRecords w onProgress t m))) k = Some r' ->
  reconciled (dbService.getSettings (localStorage m)) r r'.
Proof.
  intros Hk Hk'. unfold records_of in *.
  destruct (pass_cases w onProgress t m) as [[Hs _] | [l' [fin [Hrun [Hs _]]]]];
    rewrite Hs in Hk'.
  - assert (r' = r) by congruence. subst r'. apply reconciled_refl.
  - destruct (sync_loop_reconciles _ _ _ _ _ _ _ Hrun k Hk) as [x' [Hx' Hr]].
    assert (x' = r') by congruence. subst x'. exact Hr.
Qed.

(** X15.  The records handed to the orchestrator by one invocation are, in
    store order and once each, pending records below the retry cap: a
    leading part of them in general, all of them when the invocation got
    past its entry guard and returns. *)
Theorem eligible_records_handed_once (w : World) (onProgress : bool) (t : nat)
    (m : Machine) :
  exists rest,
    eligible (localStorage m) = (calls (syncOfflineRecords w onProgress t m) ++ rest)%list
    /\ (guard_open w t m ->
        returned (syncOfflineRecords w onProgress t m) = true -> rest = []).
Proof.
  unfold syncOfflineRecords, eligible.
  destruct (isSyncActive m || negb (onLine w t) || negb (Js.truthy_str (API_KEY w)))
    eqn:G.
  - eexists. split; [reflexivity|].
    intro Ho. apply guard_open_iff in Ho. congruence.
  - destruct (dbService.getPendingRecords (localStorage m)) as [|p ps] eqn:E.
    + exists []. split; [reflexivity | reflexivity].
    + destruct (sync_loop w _ onProgress _ 0%Z (p :: ps) _) as [l' fin] eqn:Hrun.
      destruct (sync_loop_calls _ _ _ _ _ _ _ Hrun) as [rest [Hr Hf]].
      cbn [handed app] in Hr.
      exists rest. destruct fin; cbn [calls returned].
      * rewrite handed_report. split; [exact Hr | intros _ _; apply Hf; reflexivity].
      * split; [exact Hr | intros _ ?; discriminate].
Qed.

Lemma eligible_records_handed_once_witness :
  exists rest,
    eligible (localStorage two_pending)
    = (calls (syncOfflineRecords failing_world true 0 two_pending) ++ rest)%list
    /\ rest = [].
Proof.
  destruct (eligible_records_handed_once failing_world true 0 two_pending)
    as [rest [E H]].
  exists rest. split; [exact E|].
  apply H; [repeat split | reflexivity].
Defined.

(** X16.  An invocation of [syncOfflineRecords] neither adds, removes nor
    reorders records, and leaves the id, timestamp, cropType, imageUrl,
    feedback and lastSyncError of every record as they were. *)
Theorem sync_keeps_identities (w : World) (onProgress : bool) (t : nat) (m : Machine) :
  map identity_of (records_of (final (syncOfflineRecords w onProgress t m)))
  = map identity_of (records_of m).
Proof.
  unfold records_of.
  destruct (pass_cases w onProgress t m) as [[Hs _] | [l' [fin [Hrun [Hs _]]]]];
    rewrite Hs; [reflexivity|].
  apply (sync_loop_identity _ _ _ _ _ _ _ Hrun).
Qed.

(** X17.  The flag [isSyncActive] is as it was whenever the invocation
    returns; it is left set only by an invocation that got past the guard
    and awaits a call that never settles. *)
Theorem sync_flag_released (w : World) (onProgress : bool) (t : nat) (m : Machine) :
  let pass := syncOfflineRecords w onProgress t m in
  (returned pass = true -> isSyncActive (final pass) = isSyncActive m)
  /\ (returned pass = false ->
      isSyncActive (final pass) = true /\ guard_open w t m).
Proof.
  intro pass. subst pass. unfold syncOfflineRecords.
  destruct (isSyncActive m || negb (onLine w t) || negb (Js.truthy_str (API_KEY w)))
    eqn:G.
  - split; [reflexivity | discriminate].
  - pose proof (proj1 (guard_open_iff w t m) G) as Ho.
    destruct Ho as [Ha Ho]. 
    destruct (dbService.getPendingRecords (localStorage m)) as [|p ps].
    + split; [intros _; rewrite Ha; reflexivity | discriminate].
    + destruct (sync_loop w _ onProgress _ 0%Z (p :: ps) _) as [l' fin].
      destruct fin; cbn [returned final isSyncActive].
      * split; [intros _; rewrite Ha; reflexivity | discriminate].
      * split; [discriminate|]. intros _. split; [reflexivity|].
        split; [exact Ha | exact Ho].
Qed.

Lemma sync_flag_released_witness :
  isSyncActive (final (syncOfflineRecords failing_world true 0 two_pending))
  = isSyncActive two_pending.
Proof.
  apply (proj1 (sync_flag_released failing_world true 0 two_pending)).
  vm_compute. reflexivity.
Defined.

(** X18.  No invocation makes a record pending: a record that is not
    pending before is not pending after, and a record still pending after
    has the status and the analysis it had. *)
Theorem sync_never_sets_pending (w : World) (onProgress : bool) (t : nat)
    (m : Machine) (k : nat) (r r' : CropRecord) :
  nth_error (records_of m) k = Some r ->
  nth_error (records_of (final (syncOfflineRecords w onProgress t m))) k = Some r' ->
  (Js.truthy (isPendingSync r) = false -> Js.truthy (isPendingSync r') = false)
  /\ (Js.truthy (isPendingSync r') = true ->
      status r' = status r /\ analysis r' = analysis r).
Proof.
  intros Hk Hk'.
  pose proof (pass_reconciles w onProgress t m k Hk Hk') as Hrec.
  destruct Hrec as [(Hs & Ha & Hp) | (Hp & _)].
  - rewrite Hp. split; [tauto | intros _; split; assumption].
  - rewrite Hp. split; [reflexivity | discriminate].
Qed.

Lemma sync_never_sets_pending_witness :
  exists r',
    nth_error (records_of (final (syncOfflineRecords
       (answering_world (Some mild_json)) true 0 mixed_store))) 1 = Some r'
    /\ (Js.truthy (isPendingSync r') = true ->
        status r' = status fresh_record /\ analysis r' = analysis fresh_record).
Proof.
  eexists. split; [vm_compute; reflexivity|].
  refine (proj2 (@sync_never_sets_pending (answering_world (Some mild_json)) true 0%nat
                   mixed_store 1%nat fresh_record _ eq_refl _)).
  vm_compute. reflexivity.
Defined.

(** The pending records of a store with unique ids have unique ids. *)
Lemma pending_ids_unique (ls : dbService.Storage) :
  NoDup (map id (dbService.getRecords ls)) ->
  NoDup (map id (dbService.getPendingRecords ls)).
Proof.
  unfold dbService.getPendingRecords.
  induction (dbService.getRecords ls) as [|r records IH]; intro Hnd; [exact Hnd|].
  apply NoDup_cons_iff in Hnd. destruct Hnd as [Hr Hrest]. cbn [filter].
  destruct (Js.truthy (isPendingSync r)); [|exact (IH Hrest)].
  cbn [map]. apply NoDup_cons; [|exact (IH Hrest)].
  contradict Hr. apply in_map_iff in Hr. destruct Hr as (x & Ex & Hx).
  apply filter_In in Hx. rewrite <- Ex. apply in_map. exact (proj1 Hx).
Qed.

Lemma id_spread (r : CropRecord) (u : PartialCropRecord) :
  p_id u = None -> id (dbService.spread r u) = id r.
Proof. intro H. unfold dbService.spread. cbn [id]. rewrite H. reflexivity. Qed.

Section LoopEffect.

Variable w : World.
Variable settings : UserSettings.
Variable onProgress : bool.
Variable length : Z.

(** With unique ids among the records to visit, a loop that ends makes
    of every visited record below the cap what [processed] says. *)
Lemma sync_loop_effect (pending : list CropRecord) :
  forall (i : Z) (l l' : Loop),
    sync_loop w settings onProgress length i pending l = (l', true) ->
    NoDup (map id pending) ->
    forall (k : nat) (r : CropRecord),
      In r pending -> (attempts r < MAX_SYNC_ATTEMPTS)%Z ->
      nth_error (dbService.getRecords (store l)) k = Some r ->
      exists r', nth_error (dbService.getRecords (store l')) k = Some r'
                 /\ processed w settings r r'.
Proof.
  induction pending as [|record rest IH]; intros i l l' Hrun Hnd k r Hin Hlt Hk;
    [destruct Hin|].
  cbn [sync_loop] in Hrun. cbn [map] in Hnd.
  inversion Hnd as [|x xs Hnot Hnd']; subst.
  rewrite Z.geb_leb in Hrun.
  destruct (Z.leb_spec MAX_SYNC_ATTEMPTS (attempts record)) as [Hcap | Hcap].
  - destruct Hin as [-> | Hin]; [lia|]. eapply IH; eauto.
  - destruct (analyzeCropHealth w (now (report onProgress _ l)) _ _ _)
      as [[|cloudResult]|] eqn:Hcall; [| |inversion Hrun].
    + (* null: the catch branch *)
      destruct Hin as [-> | Hin].
      * exists (dbService.spread r (failure_update r)). split.
        -- eapply sync_loop_frame; [exact Hrun| |].
           ++ cbn [store]. rewrite (updateRecord_nth _ _ _ _ (eq_trans (f_equal (fun s => nth_error (dbService.getRecords s) k) (store_report _ _ _)) Hk)).
              rewrite String.eqb_refl. reflexivity.
           ++ intros r2 Hr2 _ E. apply Hnot. rewrite id_spread in E by reflexivity.
              rewrite <- E. apply in_map. exact Hr2.
        -- right. eexists. split; [exact Hcall | reflexivity].
      * eapply IH; [exact Hrun | exact Hnd' | exact Hin | exact Hlt |].
        cbn [store]. apply updateRecord_other; [rewrite store_report; exact Hk|].
        intro E. apply Hnot. rewrite <- E. apply in_map. exact Hin.
    + destruct Hin as [-> | Hin].
      * exists (dbService.spread r (success_update r cloudResult settings)). split.
        -- eapply sync_loop_frame; [exact Hrun| |].
           ++ cbn [store]. rewrite (updateRecord_nth _ _ _ _ (eq_trans (f_equal (fun s => nth_error (dbService.getRecords s) k) (store_report _ _ _)) Hk)).
              rewrite String.eqb_refl. reflexivity.
           ++ intros r2 Hr2 _ E. apply Hnot. rewrite id_spread in E by reflexivity.
              rewrite <- E. apply in_map. exact Hr2.
        -- left. do 2 eexists. split; [exact Hcall | reflexivity].
      * eapply IH; [exact Hrun | exact Hnd' | exact Hin | exact Hlt |].
        cbn [store]. apply updateRecord_other; [rewrite store_report; exact Hk|].
        intro E. apply Hnot. rewrite <- E. apply in_map. exact Hin.
Qed.

End LoopEffect.

(** An invocation that gets past the guard with something pending runs
    the loop. *)
Lemma pass_open (w : World) (onProgress : bool) (t : nat) (m : Machine) :
  guard_open w t m ->
  dbService.getPendingRecords (localStorage m) <> [] ->
  let pass := syncOfflineRecords w onProgress t m in
  let pending := dbService.getPendingRecords (localStorage m) in
  exists l' fin,
    sync_loop w (dbService.getSettings (localStorage m)) onProgress
      (Z.of_nat (List.length pending)) 0%Z pending
      {| now := S t; store := localStorage m; handed := []; reported := [] |}
    = (l', fin)
    /\ localStorage (final pass) = store l'
    /\ returned pass = fin.
Proof.
  intros Ho Hne pass pending. subst pass. unfold syncOfflineRecords.
  rewrite (proj2 (guard_open_iff w t m) Ho).
  fold pending. destruct pending as [|p ps] eqn:E; [contradiction|].
  destruct (sync_loop w _ onProgress _ 0%Z (p :: ps) _) as [l' fin] eqn:Hrun.
  exists l', fin. split; [reflexivity|].
  destruct fin; cbn [final returned localStorage];
    [rewrite store_report|]; split; reflexivity.
Qed.

(** With unique ids, an invocation that gets past the guard and returns
    has made of every pending record below the cap what [processed]
    says. *)
Lemma pass_effect (w : World) (onProgress : bool) (t : nat)
    (m : Machine) (k : nat) (r : CropRecord) :
  NoDup (map id (records_of m)) ->
  guard_open w t m ->
  returned (syncOfflineRecords w onProgress t m) = true ->
  nth_error (records_of m) k = Some r ->
  Js.truthy (isPendingSync r) = true ->
  (attempts r < MAX_SYNC_ATTEMPTS)%Z ->
  exists r',
    nth_error (records_of (final (syncOfflineRecords w onProgress t m))) k = Some r'
    /\ processed w (dbService.getSettings (localStorage m)) r r'.
Proof.
  intros Hnd Ho Hret Hk Hp Hlt. unfold records_of in *.
  assert (Hin : In r (dbService.getPendingRecords (localStorage m))).
  { apply filter_In. split; [eapply nth_error_In; exact Hk | exact Hp]. }
  assert (Hne : dbService.getPendingRecords (localStorage m) <> []).
  { intro E. rewrite E in Hin. destruct Hin. }
  destruct (pass_open onProgress Ho Hne) as [l' [fin [Hrun [Hs Hf]]]].
  rewrite Hret in Hf. subst fin. rewrite Hs.
  eapply sync_loop_effect;
    [exact Hrun | apply pending_ids_unique; exact Hnd | exact Hin | exact Hlt | exact Hk].
Qed.

(** X19.  In a store with unique ids, an invocation that gets past the
    guard and returns has analysed every pending record below the cap
    exactly once: its attempt counter is one more than before, and the
    record is the merge of what it was either with the new analysis, the
    recomputed status and a cleared pending flag, or (after a [null]
    result) with the counter alone. *)
Theorem eligible_records_processed (w : World) (onProgress : bool) (t : nat)
    (m : Machine) (k : nat) (r : CropRecord) :
  NoDup (map id (records_of m)) ->
  guard_open w t m ->
  returned (syncOfflineRecords w onProgress t m) = true ->
  nth_error (records_of m) k = Some r ->
  Js.truthy (isPendingSync r) = true ->
  (attempts r < MAX_SYNC_ATTEMPTS)%Z ->
  exists r',
    nth_error (records_of (final (syncOfflineRecords w onProgress t m))) k = Some r'
    /\ processed w (dbService.getSettings (localStorage m)) r r'
    /\ syncAttempts r' = Some (attempts r + 1)%Z.
Proof.
  intros Hnd Ho Hret Hk Hp Hlt.
  destruct (@pass_effect w onProgress t m k r Hnd Ho Hret Hk Hp Hlt) as [r' [Hk' Hpr]].
  exists r'. split; [exact Hk'|]. split; [exact Hpr|].
  destruct Hpr as [[t' [a [_ ->]]] | [t' [_ ->]]]; reflexivity.
Qed.

Lemma eligible_records_processed_witness :
  exists r',
    nth_error (records_of (final (syncOfflineRecords failing_world true 0 two_pending))) 1
    = Some r'
    /\ processed failing_world (dbService.getSettings (localStorage two_pending))
         fresh_record r'
    /\ syncAttempts r' = Some (attempts fresh_record + 1)%Z.
Proof.
  apply eligible_records_processed.
  - repeat constructor; simpl; intuition discriminate.
  - repeat split.
  - vm_compute. reflexivity.
  - reflexivity.
  - reflexivity.
  - vm_compute. reflexivity.
Defined.

(** With nothing to analyse, an invocation leaves the records alone and
    hands nothing over. *)
Lemma nothing_eligible (w : World) (onProgress : bool) (t : nat) (m : Machine) :
  eligible (localStorage m) = [] ->
  calls (syncOfflineRecords w onProgress t m) = []
  /\ records_of (final (syncOfflineRecords w onProgress t m)) = records_of m.
Proof.
  intro He. split.
  - destruct (pass_calls_prefix w onProgress t m) as [rest E].
    rewrite He in E. symmetry in E. apply app_eq_nil in E. tauto.
  - apply nth_error_ext. intro k.
    destruct (nth_error (records_of m) k) as [x|] eqn:Hk.
    + apply pass_frame; [exact Hk|].
      intros r Hr Hlt. exfalso.
      assert (Hin : In r (eligible (localStorage m))).
      { unfold eligible. apply filter_In. split; [exact Hr|]. apply Z.ltb_lt. exact Hlt. }
      rewrite He in Hin. destruct Hin.
    + apply nth_error_None. apply nth_error_None in Hk.
      rewrite pass_same_length. exact Hk.
Qed.

(** X20.  In a store with unique ids and a world whose [JSON.parse] never
    yields [null], an invocation that gets past the guard and returns
    leaves no pending record below the cap; any further invocation, in any
    world, then hands nothing to the orchestrator and leaves the records
    as they are. *)
Theorem completed_pass_drains_queue (w : World) (onProgress : bool) (t : nat)
    (m : Machine) :
  NoDup (map id (records_of m)) ->
  guard_open w t m ->
  (forall text, JSON_parse w text <> Parsed JsNull) ->
  returned (syncOfflineRecords w onProgress t m) = true ->
  let m' := final (syncOfflineRecords w onProgress t m) in
  eligible (localStorage m') = []
  /\ forall w' onProgress' t',
       calls (syncOfflineRecords w' onProgress' t' m') = []
       /\ records_of (final (syncOfflineRecords w' onProgress' t' m')) = records_of m'.
Proof.
  intros Hnd Ho Hparse Hret m'.
  assert (He : eligible (localStorage m') = []).
  { destruct (eligible (localStorage m')) as [|x xs] eqn:E; [reflexivity|]. exfalso.
    assert (Hx : In x (eligible (localStorage m'))) by (rewrite E; left; reflexivity).
    unfold eligible in Hx. apply filter_In in Hx. destruct Hx as [Hx Hlt].
    apply Z.ltb_lt in Hlt.
    unfold dbService.getPendingRecords in Hx. apply filter_In in Hx.
    destruct Hx as [Hx Hp]. apply In_nth_error in Hx. destruct Hx as [k Hk'].
    fold (records_of m') in Hk'.
    destruct (nth_error (records_of m) k) as [r|] eqn:Hk.
    - assert (Hrp : Js.truthy (isPendingSync r) = true).
      { destruct (pass_reconciles w onProgress t m k Hk Hk') as [(_ & _ & Hs) | (Hs & _)];
          rewrite Hs in Hp; [exact Hp | discriminate Hp]. }
      destruct (Z.lt_ge_cases (attempts r) MAX_SYNC_ATTEMPTS) as [Hr | Hr].
      + destruct (@pass_effect w onProgress t m k r Hnd Ho Hret Hk Hrp Hr)
          as [r' [Hr' Hpr]].
        fold m' in Hr'. assert (r' = x) by congruence. subst r'.
        destruct Hpr as [[t' [a [_ ->]]] | [t' [Hnull _]]].
        * discriminate Hp.
        * destruct (null_only_from_remote _ _ _ _ _ Hnull) as [text Hn].
          exact (Hparse _ Hn).
      + assert (Hsame : nth_error (records_of m') k = Some r).
        { apply pass_frame; [exact Hk|].
          intros r2 Hr2 Hlt2. unfold dbService.getPendingRecords in Hr2.
          apply filter_In in Hr2. destruct Hr2 as [Hin2 _].
          eapply unique_ids_distinct; eauto. intro E2. subst r2. lia. }
        assert (x = r) by congruence. subst x. lia.
    - apply nth_error_None in Hk.
      assert (Hlen : List.length (records_of m') = List.length (records_of m)).
      { apply pass_same_length. }
      assert (nth_error (records_of m') k <> None) by congruence.
      apply nth_error_Some in H. lia. }
  split; [exact He|]. intros w' onProgress' t'. apply nothing_eligible. exact He.
Qed.

Lemma completed_pass_drains_queue_witness :
  eligible (localStorage (final (syncOfflineRecords failing_world true 0 two_pending))) = [].
Proof.
  refine (proj1 (@completed_pass_drains_queue failing_world true 0%nat two_pending
                   _ _ _ _)).
  - repeat constructor; simpl; intuition discriminate.
  - repeat split.
  - intros text. discriminate.
  - vm_compute. reflexivity.
Defined.

(* ================================================================== *)
(** ** Progress reports *)
(* ================================================================== *)

Lemma reported_report (b : bool) (p : SyncProgress) (l : Loop) :
  reported (report b p l) = (reported l ++ (if b then [p] else []))%list.
Proof. destruct b; simpl; [reflexivity | rewrite app_nil_r; reflexivity]. Qed.

Section LoopReports.

Variable w : World.
Variable settings : UserSettings.
Variable onProgress : bool.
Variable length : Z.

(** What the loop reports: one [syncing] report per record handed over
    when there is a callback, with a position between 1 and the number of
    pending records. *)
Lemma sync_loop_reports (pending : list CropRecord) :
  forall (i : Z) (l l' : Loop) (fin : bool),
    sync_loop w settings onProgress length i pending l = (l', fin) ->
    (0 <= i)%Z -> (i + Z.of_nat (List.length pending) <= length)%Z ->
    exists new,
      reported l' = (reported l ++ new)%list
      /\ Forall (fun p => progress_status p = syncing /\ total p = length
                          /\ (1 <= current p <= length)%Z
                          /\ exists r, In r pending /\ currentCrop p = Some (cropType r))
                new
      /\ (onProgress = false -> new = [])
      /\ (onProgress = true ->
          (List.length (handed l) + List.length new = List.length (handed l'))%nat).
Proof.
  induction pending as [|record rest IH]; intros i l l' fin Hrun Hi Hlen.
  - simpl in Hrun. inversion Hrun; subst. exists [].
    rewrite app_nil_r. repeat split; auto.
  - cbn [sync_loop] in Hrun. cbn [List.length] in Hlen.
    assert (Hweak : forall new : list SyncProgress,
              Forall (fun p => progress_status p = syncing /\ total p = length
                               /\ (1 <= current p <= length)%Z
                               /\ exists r, In r rest /\ currentCrop p = Some (cropType r)) new ->
              Forall (fun p => progress_status p = syncing /\ total p = length
                               /\ (1 <= current p <= length)%Z
                               /\ exists r, In r (record :: rest)
                                            /\ currentCrop p = Some (cropType r)) new).
    { intros new H. eapply Forall_impl; [|exact H].
      intros p (A & B & C & r & Hr & D). repeat split; try assumption; try lia.
      exists r. split; [right; exact Hr | exact D]. }
    destruct (attempts record >=? MAX_SYNC_ATTEMPTS)%Z.
    + destruct (IH (i + 1)%Z l l' fin Hrun) as (new & E & F & N & C); try lia.
      exists new. repeat split; auto.
    + set (ev := {| current := (i + 1)%Z; total := length; progress_status := syncing;
                    currentCrop := Some (cropType record) |}) in *.
      assert (Hev : Forall (fun p => progress_status p = syncing /\ total p = length
                               /\ (1 <= current p <= length)%Z
                               /\ exists r, In r (record :: rest)
                                            /\ currentCrop p = Some (cropType r))
                      (if onProgress then [ev] else [])).
      { destruct onProgress; constructor; [|constructor].
        subst ev. cbn. repeat split; try lia.
        exists record. split; [left; reflexivity | reflexivity]. }
      destruct (analyzeCropHealth w _ _ _ _) as [[|cloudResult]|].
      * destruct (IH (i + 1)%Z _ l' fin Hrun) as (new & E & F & N & C); try lia.
        cbn [reported handed] in E, C. rewrite reported_report in E.
        rewrite handed_report in C.
        exists ((if onProgress then [ev] else []) ++ new)%list.
        split; [rewrite E, app_assoc; reflexivity|].
        split; [apply Forall_app; split; [exact Hev | apply Hweak; exact F]|].
        split; [intro Hb; rewrite (N Hb), Hb; reflexivity|].
        intro Hb. specialize (C Hb). rewrite Hb. rewrite length_app in *. simpl in *. lia.
      * destruct (IH (i + 1)%Z _ l' fin Hrun) as (new & E & F & N & C); try lia.
        cbn [reported handed] in E, C. rewrite reported_report in E.
        rewrite handed_report in C.
        exists ((if onProgress then [ev] else []) ++ new)%list.
        split; [rewrite E, app_assoc; reflexivity|].
        split; [apply Forall_app; split; [exact Hev | apply Hweak; exact F]|].
        split; [intro Hb; rewrite (N Hb), Hb; reflexivity|].
        intro Hb. specialize (C Hb). rewrite Hb. rewrite length_app in *. simpl in *. lia.
      * inversion Hrun; subst. cbn [reported handed].
        rewrite reported_report, handed_report.
        exists (if onProgress then [ev] else []).
        split; [reflexivity|]. split; [exact Hev|].
        split; [intro Hb; rewrite Hb; reflexivity|].
        intro Hb. rewrite Hb. rewrite length_app. simpl. lia.
Qed.

End LoopReports.

(** X21.  Without a callback nothing is reported, and neither is anything
    when the guard stops the invocation or nothing is pending (not even
    completion).  Otherwise the reports are one [syncing] report per
    record handed to the orchestrator, each with the total number of
    pending records, a position between 1 and that total and the crop of
    a pending record, followed, exactly when the invocation returns, by
    one [completed] report; [idle] and [failed] are never reported. *)
Theorem progress_reports (w : World) (onProgress : bool) (t : nat) (m : Machine) :
  let pass := syncOfflineRecords w onProgress t m in
  let pending := dbService.getPendingRecords (localStorage m) in
  let n := Z.of_nat (List.length pending) in
  (onProgress = false -> progress pass = [])
  /\ (~ guard_open w t m \/ pending = [] -> progress pass = [])
  /\ (onProgress = true -> guard_open w t m -> pending <> [] ->
      exists syncs,
        progress pass
        = (syncs ++ (if returned pass
                     then [{| current := n; total := n; progress_status := completed;
                              currentCrop := None |}]
                     else []))%list
        /\ List.length syncs = List.length (calls pass)
        /\ Forall (fun p => progress_status p = syncing /\ total p = n
                            /\ (1 <= current p <= n)%Z
                            /\ exists r, In r pending /\ currentCrop p = Some (cropType r))
                  syncs).
Proof.
  intros pass pending n. subst pass. unfold syncOfflineRecords.
  destruct (isSyncActive m || negb (onLine w t) || negb (Js.truthy_str (API_KEY w)))
    eqn:G.
  - split; [reflexivity|]. split; [reflexivity|].
    intros _ Ho. apply guard_open_iff in Ho. congruence.
  - fold pending. destruct pending as [|p ps] eqn:E.
    + split; [reflexivity|]. split; [reflexivity|]. intros _ _ H. contradiction.
    + destruct (sync_loop w _ onProgress _ 0%Z (p :: ps) _) as [l' fin] eqn:Hrun.
      edestruct sync_loop_reports as (new & Er & F & N & C);
        [exact Hrun | lia | lia |].
      cbn [reported handed app List.length] in Er, C.
      split; [|split].
      * intro Hb. subst onProgress. rewrite (N eq_refl) in Er.
        destruct fin; cbn [progress]; [rewrite reported_report|]; rewrite Er; reflexivity.
      * intros [Hng | He]; [|discriminate].
        exfalso. apply Hng. apply guard_open_iff. exact G.
      * intros Hb _ _. subst onProgress. specialize (C eq_refl). exists new.
        destruct fin; cbn [progress returned calls].
        -- rewrite reported_report, handed_report, Er.
           split; [reflexivity|]. split; [lia | exact F].
        -- rewrite Er, app_nil_r. split; [reflexivity|]. split; [lia | exact F].
Qed.

Lemma progress_reports_witness :
  progress (syncOfflineRecords failing_world true 0 busy_machine) = [].
Proof.
  refine (proj1 (proj2 (progress_reports failing_world true 0 busy_machine)) _).
  left. intros [H _]. discriminate H.
Defined.

(* ================================================================== *)
(** ** The two status rules, alerts and the dashboard *)
(* ================================================================== *)

Lemma gt_undef_threshold (x : option Q) (p q : Q) :
  p == q -> Js.gt_undef x p = Js.gt_undef x q.
Proof.
  intro E. destruct x as [l|]; [|reflexivity]. simpl. unfold Js.gt.
  rewrite E. reflexivity.
Qed.

(** X22.  With the insurance threshold at 30, the status recomputed by
    the sync pass is the status the analyzer gives to the same analysis,
    except when the analyzer's only reason is a stressProbability at or
    above the stress threshold: the analyzer then says Stressed and the
    sync pass Healthy. *)
Theorem sync_status_vs_analyzer_status (a : YieldAnalysis) (settings : UserSettings) :
  insuranceThreshold settings == 30 ->
  recomputed_status a settings = Analyzer.status_of a (stressThreshold settings)
  \/ (Analyzer.status_of a (stressThreshold settings) = STRESSED
      /\ recomputed_status a settings = HEALTHY
      /\ Js.ge_undef (stressProbability a) (stressThreshold settings) = true
      /\ Js.gt_undef (expectedLoss a) 5 = false
      /\ Js.truthy (symptomlessStressDetected a) = false).
Proof.
  intro H30. unfold recomputed_status, Analyzer.status_of.
  rewrite (gt_undef_threshold (expectedLoss a) H30).
  destruct (Js.gt_undef (expectedLoss a) 30); [left; reflexivity|].
  destruct (Js.gt_undef (expectedLoss a) 5) eqn:H5.
  - left. reflexivity.
  - destruct (Js.truthy (symptomlessStressDetected a)); [left; reflexivity|].
    cbn [orb].
    destruct (Js.ge_undef (stressProbability a) (stressThreshold settings));
      [|left; reflexivity].
    right.
    assert (H15 : Js.gt_undef (expectedLoss a) 15 = false).
    { destruct (expectedLoss a) as [l|]; [|reflexivity]. simpl in *.
      apply gt_false in H5. apply gt_false. lra. }
    rewrite H15. repeat split.
Qed.

Lemma sync_status_vs_analyzer_status_witness :
  let settings := {| stressSensitivity := Standard; stressThreshold := 10;
                     insuranceThreshold := 30; autoSync := true |} in
  recomputed_status empty_object settings
  = Analyzer.status_of empty_object (stressThreshold settings)
  \/ (Analyzer.status_of empty_object (stressThreshold settings) = STRESSED
      /\ recomputed_status empty_object settings = HEALTHY
      /\ Js.ge_undef (stressProbability empty_object) (stressThreshold settings) = true
      /\ Js.gt_undef (expectedLoss empty_object) 5 = false
      /\ Js.truthy (symptomlessStressDetected empty_object) = false).
Proof.
  intro settings. apply sync_status_vs_analyzer_status. reflexivity.
Defined.

Lemma critical_iff (a : YieldAnalysis) (settings : UserSettings) :
  recomputed_status a settings = CRITICAL
  <-> Js.gt_undef (expectedLoss a) (insuranceThreshold settings) = true.
Proof.
  unfold recomputed_status.
  destruct (Js.gt_undef (expectedLoss a) (insuranceThreshold settings));
    [tauto|].
  destruct (Js.gt_undef (expectedLoss a) 5 || Js.truthy (symptomlessStressDetected a));
    [destruct (Js.gt_undef (expectedLoss a) 15)|]; split; discriminate.
Qed.

(** X23.  A record that the sync pass cleared from pending with status
    Critical is among the insurance alerts computed with the same
    insurance threshold. *)
Theorem critical_records_are_alerts (w : World) (onProgress : bool) (t : nat)
    (m : Machine) (k : nat) (r r' : CropRecord) :
  nth_error (records_of m) k = Some r ->
  Js.truthy (isPendingSync r) = true ->
  nth_error (records_of (final (syncOfflineRecords w onProgress t m))) k = Some r' ->
  Js.truthy (isPendingSync r') = false ->
  status r' = CRITICAL ->
  In r' (Insurance.insuranceAlerts
           (records_of (final (syncOfflineRecords w onProgress t m)))
           (insuranceThreshold (dbService.getSettings (localStorage m)))).
Proof.
  intros Hk Hp Hk' Hnp Hc.
  unfold Insurance.insuranceAlerts. apply filter_In.
  split; [eapply nth_error_In; exact Hk'|].
  destruct (pass_reconciles w onProgress t m k Hk Hk') as [(_ & _ & Hs) | (_ & Hst)].
  - rewrite Hs in Hnp. congruence.
  - rewrite Hst in Hc. apply critical_iff in Hc.
    destruct (expectedLoss (analysis r')) as [l|]; [|discriminate].
    simpl in *. apply gt_true in Hc. apply Qle_bool_iff. lra.
Qed.

Lemma critical_records_are_alerts_witness :
  let m := {| localStorage :=
                {| dbService.agroguard_records := Some [fresh_record];
                   dbService.agroguard_settings :=
                     Some {| stressSensitivity := Standard; stressThreshold := 20;
                             insuranceThreshold := 3; autoSync := true |} |};
              isSyncActive := false |} in
  let after := records_of (final (syncOfflineRecords failing_world true 0 m)) in
  exists r',
    nth_error after 0 = Some r'
    /\ isPendingSync r' = Some false
    /\ status r' = CRITICAL
    /\ In r' (Insurance.insuranceAlerts after
                (insuranceThreshold (dbService.getSettings (localStorage m)))).
Proof.
  intros m after. exists (nth 0 after fresh_record).
  split; [vm_compute; reflexivity|].
  split; [vm_compute; reflexivity|].
  split; [vm_compute; reflexivity|].
  apply (@critical_records_are_alerts failing_world true 0%nat m 0%nat fresh_record).
  - reflexivity.
  - reflexivity.
  - vm_compute. reflexivity.
  - vm_compute. reflexivity.
  - vm_compute. reflexivity.
Defined.

Lemma sum_losses_defined (records : list CropRecord) (acc : option Q) :
  fold_left
    (fun acc r =>
       match acc, expectedLoss (analysis r) with
       | Some a, Some l => Some (a + l)
       | _, _ => None
       end) records acc <> None
  <-> acc <> None /\ Forall (fun r => expectedLoss (analysis r) <> None) records.
Proof.
  revert acc. induction records as [|r rest IH]; intro acc; cbn [fold_left].
  - split; [intro H; split; [exact H | constructor] | tauto].
  - rewrite IH. split.
    + intros [H F]. destruct acc as [a|]; [|contradiction].
      destruct (expectedLoss (analysis r)) as [l|] eqn:E; [|contradiction].
      split; [discriminate|]. constructor; [rewrite E; discriminate | exact F].
    + intros [H F]. inversion F as [|x xs Hx Hxs]; subst.
      destruct acc as [a|]; [|contradiction].
      destruct (expectedLoss (analysis r)) as [l|]; [|contradiction].
      split; [discriminate | exact Hxs].
Qed.

Lemma percentage_bounds (h n : nat) :
  (h <= n)%nat -> (0 < n)%nat ->
  (0 <= Js.Math_round (inject_Z (Z.of_nat h) / inject_Z (Z.of_nat n) * 100) <= 100)%Z.
Proof.
  intros Hle Hpos.
  assert (Hn : 0 < inject_Z (Z.of_nat n)).
  { change 0 with (inject_Z 0). rewrite <- Zlt_Qlt. lia. }
  assert (Hh0 : 0 <= inject_Z (Z.of_nat h)).
  { change 0 with (inject_Z 0). rewrite <- Zle_Qle. lia. }
  assert (Hhn : inject_Z (Z.of_nat h) <= inject_Z (Z.of_nat n)).
  { rewrite <- Zle_Qle. lia. }
  assert (H0 : 0 <= inject_Z (Z.of_nat h) / inject_Z (Z.of_nat n)).
  { apply Qle_shift_div_l; [exact Hn | lra]. }
  assert (H1 : inject_Z (Z.of_nat h) / inject_Z (Z.of_nat n) <= 1).
  { apply Qle_shift_div_r; [exact Hn | lra]. }
  set (x := inject_Z (Z.of_nat h) / inject_Z (Z.of_nat n)) in *. clearbody x.
  apply Math_round_bounds; unfold inject_Z; lra.
Qed.

(** X24.  On a store that is not empty, the dashboard shows the number of
    records, a healthy percentage between 0 and 100, and as active alerts
    the number of entries of the insurance alert list, which is at most
    the number of records; the average loss is a number exactly when
    every analysis has an expectedLoss.  On an empty store the previous
    statistics stay. *)
Theorem dashboard_statistics (settings : UserSettings) (ls : dbService.Storage)
    (old : DashboardStats) :
  let stats := App.loadData settings ls old in
  let records := dbService.getRecords ls in
  (records = [] -> stats = old)
  /\ (records <> [] ->
      totalAnalyzed stats = Z.of_nat (List.length records)
      /\ (0 <= healthyPercentage stats <= 100)%Z
      /\ activeAlerts stats
         = Z.of_nat (List.length
             (Insurance.insuranceAlerts records (insuranceThreshold settings)))
      /\ (0 <= activeAlerts stats <= totalAnalyzed stats)%Z
      /\ (averageYieldLoss stats <> None
          <-> Forall (fun r => expectedLoss (analysis r) <> None) records)).
Proof.
  intros stats records. subst stats. unfold App.loadData. fold records.
  destruct records as [|r rest] eqn:E.
  - split; [reflexivity | intro H; contradiction].
  - split; [discriminate|]. intros _.
    cbn [totalAnalyzed healthyPercentage activeAlerts averageYieldLoss].
    split; [reflexivity|].
    split.
    { apply percentage_bounds; [apply filter_length_le | simpl; lia]. }
    split; [reflexivity|].
    split.
    { pose proof (filter_length_le
                    (fun x => Js.ge_undef (expectedLoss (analysis x))
                                (insuranceThreshold settings)) (r :: rest)).
      lia. }
    unfold App.sum_losses.
    pose proof (sum_losses_defined (r :: rest) (Some 0)) as Hsum.
    destruct (fold_left _ (r :: rest) (Some 0)) as [total|]; cbn [option_map].
    + split; [intros _; apply Hsum; discriminate | discriminate].
    + split; [intro H; contradiction|].
      intro F. exfalso. apply (proj2 Hsum); [split; [discriminate | exact F] | reflexivity].
Qed.

(* ================================================================== *)
(** ** New records: from the analyzer to the queue *)
(* ================================================================== *)

Lemma localAnalysis_schema (v : LocalVisualFeatures) (s : StressSensitivity) :
  ANALYSIS_SCHEMA (localAnalysis v s) = true.
Proof.
  unfold localAnalysis. destruct (bestMatch v). reflexivity.
Qed.

(** X25.  Without an image the analysis button does nothing.  With an
    image, offline or without a credential, and the image's load event
    firing, the analyzer shows a result and never the failure alert: a
    record with the given id and time, the image kept, no pending flag
    yet, an analysis with every field the schema requires and the status
    the analyzer's rule gives to that analysis. *)
Theorem offline_analysis_shows_result (w : World) (t : nat) (data crop : string)
    (s : StressSensitivity) (stressThreshold : Q) (randomId : string) (time : Z) :
  data <> EmptyString ->
  onLine w t = false \/ Js.truthy_str (API_KEY w) = false ->
  loadImage w data <> NoLoadEvent ->
  Analyzer.handleStartAnalysis w t None crop s stressThreshold randomId time
    = Analyzer.Ignored
  /\ Analyzer.handleStartAnalysis w t (Some EmptyString) crop s stressThreshold randomId time
     = Analyzer.Ignored
  /\ exists record,
       Analyzer.handleStartAnalysis w t (Some data) crop s stressThreshold randomId time
       = Analyzer.ShowResult record
       /\ id record = randomId /\ timestamp record = time /\ cropType record = crop
       /\ imageUrl record = Some data
       /\ isPendingSync record = None
       /\ ANALYSIS_SCHEMA (analysis record) = true
       /\ status record = Analyzer.status_of (analysis record) stressThreshold.
Proof.
  intros Hdata Hoff Hload.
  split; [reflexivity|]. split; [reflexivity|].
  unfold Analyzer.handleStartAnalysis.
  assert (Ht : Js.truthy_str (Some data) = true).
  { simpl. apply negb_true_iff. apply String.eqb_neq. exact Hdata. }
  rewrite Ht. cbn [negb].
  assert (Hlocal : exists v, analyzeCropHealth w t (Some data) crop s
                             = Some (JsObject (localAnalysis v s))).
  { unfold analyzeCropHealth.
    assert (G : negb (onLine w t) || negb (Js.truthy_str (API_KEY w)) = true).
    { destruct Hoff as [H | H]; rewrite H; simpl; [reflexivity | apply orb_true_r]. }
    rewrite G. unfold runLocalInference. rewrite Ht.
    unfold extractVisualFeatures.
    destruct (loadImage w data) as [pixels| |];
      [exists (onload pixels) | exists no_context_features | contradiction];
      reflexivity. }
  destruct Hlocal as [v Hv]. rewrite Hv.
  eexists. split; [reflexivity|].
  cbn [id timestamp cropType imageUrl isPendingSync analysis status].
  do 5 (split; [reflexivity|]). split; [apply localAnalysis_schema | reflexivity].
Qed.

Lemma offline_analysis_shows_result_witness :
  exists record,
    Analyzer.handleStartAnalysis leaf_world 0 (Some "leaf"%string) "Potato" Standard 20
      "k3x9q0a1b" 1700000000000
    = Analyzer.ShowResult record
    /\ ANALYSIS_SCHEMA (analysis record) = true.
Proof.
  destruct (@offline_analysis_shows_result leaf_world 0%nat "leaf"%string "Potato"%string
              Standard 20 "k3x9q0a1b"%string 1700000000000%Z)
    as (_ & _ & record & E & _ & _ & _ & _ & _ & S & _).
  - discriminate.
  - left. reflexivity.
  - discriminate.
  - exists record. split; [exact E | exact S].
Defined.

(** X26.  A new record is stored first, with its attempt counter at 0
    and the fields of the record given otherwise; saved while offline it
    heads the pending records a pass has to analyse, saved while online it
    leaves the pending records as they were. *)
Theorem new_record_queueing (record : CropRecord) (isOnline : bool)
    (ls : dbService.Storage) :
  let ls' := App.handleNewRecord record isOnline ls in
  exists saved,
    dbService.getRecords ls' = saved :: dbService.getRecords ls
    /\ identity_of saved = identity_of record
    /\ status saved = status record /\ analysis saved = analysis record
    /\ syncAttempts saved = Some 0%Z
    /\ (isOnline = false ->
        dbService.getPendingRecords ls' = saved :: dbService.getPendingRecords ls
        /\ eligible ls' = saved :: eligible ls)
    /\ (isOnline = true ->
        dbService.getPendingRecords ls' = dbService.getPendingRecords ls
        /\ eligible ls' = eligible ls).
Proof.
  intro ls'. subst ls'. unfold App.handleNewRecord.
  eexists. split; [reflexivity|].
  repeat (split; [reflexivity|]).
  split; intro H; subst isOnline; split; reflexivity.
Qed.

(* ================================================================== *)
(** ** The distribution by crop type *)
(* ================================================================== *)

Lemma increment_names (name : string) (acc : list (string * Z)) :
  map fst (Analytics.increment name acc) = map fst acc.
Proof.
  induction acc as [|[n v] acc IH]; simpl; [reflexivity|].
  destruct (String.eqb n name); simpl; [reflexivity | rewrite IH; reflexivity].
Qed.

Lemma increment_entries (name : string) (acc : list (string * Z)) (n : string) (v : Z) :
  NoDup (map fst acc) ->
  (In (n, v) (Analytics.increment name acc)
   <-> (n <> name /\ In (n, v) acc) \/ (n = name /\ In (n, (v - 1)%Z) acc)).
Proof.
  induction acc as [|[m u] acc IH]; intro Hnd; simpl.
  - tauto.
  - inversion Hnd as [|? ? Hm Hnd']; subst.
    destruct (String.eqb m name) eqn:E.
    + apply String.eqb_eq in E. subst m. simpl. split.
      * intros [H | H].
        -- inversion H; subst. right. split; [reflexivity|]. left. f_equal. lia.
        -- left. split; [|right; exact H].
           intro; subst n. apply Hm. change name with (fst (name, v)).
           apply in_map. exact H.
      * intros [[Hne [H | H]] | [He [H | H]]].
        -- inversion H; subst. contradiction.
        -- right. exact H.
        -- inversion H; subst. left. f_equal. lia.
        -- subst n. exfalso. apply Hm. change name with (fst (name, (v - 1)%Z)).
           apply in_map. exact H.
    + apply String.eqb_neq in E. simpl. rewrite (IH Hnd'). split.
      * intros [H | [[Hne H] | [He H]]].
        -- inversion H; subst. left. split; [exact E | left; reflexivity].
        -- left. split; [exact Hne | right; exact H].
        -- right. split; [exact He | right; exact H].
      * intros [[Hne [H | H]] | [He [H | H]]].
        -- left. exact H.
        -- right. left. split; assumption.
        -- inversion H; subst. contradiction.
        -- right. right. split; assumption.
Qed.

Lemma existsb_names (name : string) (acc : list (string * Z)) :
  existsb (fun item => String.eqb (fst item) name) acc = true <-> In name (map fst acc).
Proof.
  rewrite existsb_exists, in_map_iff. split.
  - intros [x [Hx E]]. apply String.eqb_eq in E. exists x. split; assumption.
  - intros [x [E Hx]]. exists x. split; [exact Hx | apply String.eqb_eq; exact E].
Qed.

Lemma crop_count_app (n : string) (l : list CropRecord) (r : CropRecord) :
  crop_count n (l ++ [r])
  = (crop_count n l + if String.eqb (cropType r) n then 1 else 0)%Z.
Proof.
  unfold crop_count. rewrite filter_app, length_app. simpl.
  destruct (String.eqb (cropType r) n); simpl; lia.
Qed.

Lemma crop_count_nonneg (n : string) (l : list CropRecord) : (0 <= crop_count n l)%Z.
Proof. unfold crop_count. lia. Qed.

(** The invariant of the [reduce]: after the records [seen], the
    accumulator holds one entry per crop type met, with its count. *)
Lemma typeData_step_invariant (acc : list (string * Z)) (seen : list CropRecord)
    (r : CropRecord) :
  NoDup (map fst acc) ->
  (forall n v, In (n, v) acc <-> v = crop_count n seen /\ (0 < v)%Z) ->
  NoDup (map fst (Analytics.typeData_step acc r))
  /\ (forall n v, In (n, v) (Analytics.typeData_step acc r)
                  <-> v = crop_count n (seen ++ [r]) /\ (0 < v)%Z).
Proof.
  intros Hnd Hacc. unfold Analytics.typeData_step.
  destruct (existsb (fun item => String.eqb (fst item) (cropType r)) acc) eqn:E.
  - apply existsb_names in E. apply in_map_iff in E.
    destruct E as [[m u] [Em Hin]]. simpl in Em. subst m.
    destruct (proj1 (Hacc _ _) Hin) as [Eu Hu].
    split; [rewrite increment_names; exact Hnd|].
    intros n v. rewrite (@increment_entries (cropType r) acc n v Hnd), crop_count_app, !Hacc.
    destruct (String.eqb (cropType r) n) eqn:En.
    + apply String.eqb_eq in En. subst n. pose proof (crop_count_nonneg (cropType r) seen).
      split; [intros [[Hne _] | [_ [H1 H2]]]; [contradiction | lia]|].
      intros [H1 H2]. right. split; [reflexivity|]. lia.
    + apply String.eqb_neq in En.
      split; [intros [[_ [H1 H2]] | [He _]]; [lia | congruence]|].
      intros [H1 H2]. left. split; [congruence | lia].
  - assert (Hno : ~ In (cropType r) (map fst acc)).
    { intro H. apply existsb_names in H. congruence. }
    assert (Hzero : crop_count (cropType r) seen = 0%Z).
    { pose proof (crop_count_nonneg (cropType r) seen) as Hge.
      destruct (Z.eq_dec (crop_count (cropType r) seen) 0) as [E0 | Hne]; [exact E0|].
      exfalso. apply Hno.
      change (cropType r) with (fst (cropType r, crop_count (cropType r) seen)).
      apply in_map. apply Hacc. split; [reflexivity | lia]. }
    split.
    + rewrite map_app. simpl.
      rewrite <- (rev_involutive (map fst acc ++ [cropType r])).
      apply NoDup_rev. rewrite rev_app_distr. simpl.
      constructor; [rewrite <- in_rev; exact Hno | apply NoDup_rev; exact Hnd].
    + intros n v. rewrite in_app_iff, crop_count_app, Hacc. simpl.
      destruct (String.eqb (cropType r) n) eqn:En.
      * apply String.eqb_eq in En. subst n. rewrite Hzero. split.
        -- intros [[H1 H2] | [H | []]]; [lia|]. inversion H; subst. lia.
        -- intros [H1 H2]. right. left. f_equal. lia.
      * apply String.eqb_neq in En. split.
        -- intros [[H1 H2] | [H | []]]; [lia|]. inversion H; subst. contradiction.
        -- intros [H1 H2]. left. lia.
Qed.

Lemma typeData_fold (rs seen : list CropRecord) (acc : list (string * Z)) :
  NoDup (map fst acc) ->
  (forall n v, In (n, v) acc <-> v = crop_count n seen /\ (0 < v)%Z) ->
  NoDup (map fst (fold_left Analytics.typeData_step rs acc))
  /\ (forall n v, In (n, v) (fold_left Analytics.typeData_step rs acc)
                  <-> v = crop_count n (seen ++ rs) /\ (0 < v)%Z).
Proof.
  revert seen acc. induction rs as [|r rs IH]; intros seen acc Hnd Hacc; simpl.
  - rewrite app_nil_r. split; assumption.
  - destruct (@typeData_step_invariant acc seen r Hnd Hacc) as [Hnd' Hacc'].
    replace (seen ++ r :: rs) with ((seen ++ [r]) ++ rs)
      by (rewrite <- app_assoc; reflexivity).
    apply IH; assumption.
Qed.

(** X27.  The distribution by crop type of the analytics page: every
    crop type met among the records has exactly one entry, whose value is
    the number of records of that type, and there is no other entry. *)
Theorem typeData_counts (records : list CropRecord) :
  NoDup (map fst (Analytics.typeData records))
  /\ (forall n v, In (n, v) (Analytics.typeData records)
                  <-> v = crop_count n records /\ (0 < v)%Z).
Proof.
  unfold Analytics.typeData.
  apply (@typeData_fold records [] []).
  - constructor.
  - intros n v. simpl. unfold crop_count. simpl. lia.
Qed.
